(** * Attendance backend: data access layer, validation and API surface

    A shallow embedding of the Python backend (models.py, schemas.py,
    crud.py, routers/attendance_v1.py, routers/attendance_v2.py, main.py)
    and the properties of its specification.

    Conventions.
    - A Python [int] is a [Z], a Python [str] a [string] read as a sequence
      of characters, [None] is the [None] of an [option].
    - A Python [datetime] is a wall-clock reading with, when the value is
      aware, its UTC offset; the column [timestamp] is without time zone
      and holds naive values only.
    - The SQLAlchemy [Session] is explicit state: the committed rows of the
      table [attendance_records], the id sequence, the pending unit of work,
      the number of calls of rollback(), the outcome of the coming round
      trips to the database (so that a failure of the persistence layer can
      be played) and what the database server decides alone (the order of
      rows of equal timestamp, its time zone, whether a failed commit had
      reached the server).
    - Python exceptions are the [Raise] results of a state and error monad.
    - Logging has no effect on any result and is left out. *)

From Stdlib Require Import ZArith List String Ascii Bool Lia.
From Stdlib Require Import Sorting.Sorted Sorting.Permutation.
From Stdlib Require Import Numbers.DecimalString.
From Stdlib Require Numbers.DecimalZ Numbers.DecimalPos.
Import ListNotations.

Local Open Scope string_scope.
Local Open Scope list_scope.
Local Open Scope Z_scope.

(* ================================================================== *)
(** ** models.py *)

Module models.

(** A Python datetime: the reading of the wall clock and, for an aware
    value, the UTC offset it carries (both in seconds); a naive value
    has no offset. *)
Record datetime := mkDatetime {
  wall : Z;
  utcoffset : option Z
}.

Definition naive (w : Z) : datetime := mkDatetime w None.
Definition aware (w off : Z) : datetime := mkDatetime w (Some off).

(** class AttendanceRecord(Base), one row of [attendance_records] and
    the Python object that stands for it.  [id] is [None] until the row is
    flushed; [timestamp] is a column without time zone; [created_at] is a
    server default; [updated_at] only has an [onupdate]. *)
Record AttendanceRecord := mkAttendanceRecord {
  id : option Z;
  student_name : string;
  student_id : string;
  timestamp : datetime;
  bluetooth_signal_strength : option Z;
  status : string;
  created_at : option datetime;
  updated_at : option datetime
}.

Definition with_id (i : option Z) (r : AttendanceRecord) : AttendanceRecord :=
  mkAttendanceRecord i (student_name r) (student_id r) (timestamp r)
    (bluetooth_signal_strength r) (status r) (created_at r) (updated_at r).

Definition with_created_at (c : option datetime) (r : AttendanceRecord)
  : AttendanceRecord :=
  mkAttendanceRecord (id r) (student_name r) (student_id r) (timestamp r)
    (bluetooth_signal_strength r) (status r) c (updated_at r).

Definition with_timestamp (t : datetime) (r : AttendanceRecord)
  : AttendanceRecord :=
  mkAttendanceRecord (id r) (student_name r) (student_id r) t
    (bluetooth_signal_strength r) (status r) (created_at r) (updated_at r).

(** [AttendanceRecord.id == k], as a filter on rows. *)
Definition id_is (k : Z) (r : AttendanceRecord) : bool :=
  match id r with
  | Some i => i =? k
  | None => false
  end.

End models.

(* ================================================================== *)
(** ** The session (sqlalchemy.orm.Session) on PostgreSQL

    This module is not code of the repository: it is a model of what the
    code calls, the Session and the Query of SQLAlchemy over the psycopg2
    driver and a PostgreSQL server, as far as crud.py uses them. *)

Module orm.
Import models.

(** The exceptions the handlers see: what the persistence layer raises
    (sqlalchemy.exc.SQLAlchemyError), what the database driver raises
    and SQLAlchemy lets through as it is (ValueError), and
    fastapi.HTTPException. *)
Inductive exn :=
| SQLAlchemyError (text : string)
| ValueError (text : string)
| HTTPException (status_code : Z) (detail : string).

Inductive result (A : Type) :=
| Ok (a : A)
| Raise (e : exn).
Arguments Ok {A} a.
Arguments Raise {A} e.

(** What the database server decides alone. *)
Record Server := mkServer {
  (* the rank of a row among the rows of equal timestamp, for a query of
     this OFFSET and LIMIT over these rows: the same query on the same rows
     has the same order, another query may have another *)
  ties : option Z -> option Z -> list AttendanceRecord
         -> AttendanceRecord -> Z;
  (* had the statements of the flush reached the server when a commit
     failed with this text *)
  sent : string -> bool;
  (* the UTC offset of the TimeZone setting at a UTC instant *)
  zone : Z -> Z
}.

Record Session := mkSession {
  table : list AttendanceRecord;   (* committed rows, in insertion order *)
  sequence : Z;                    (* next value of the id sequence *)
  clock : datetime;                (* func.now() of the database *)
  objs : list AttendanceRecord;    (* objects handed to add(), by handle *)
  new : list nat;                  (* handles pending INSERT *)
  deleted : list Z;                (* primary keys pending DELETE *)
  faults : list (option string);   (* coming round trips: None succeeds,
                                      Some text raises; [] never raises *)
  server : Server;
  rollbacks : nat                  (* calls of rollback() so far *)
}.

Definition M (A : Type) := Session -> Session * result A.

Definition ret {A} (a : A) : M A := fun s => (s, Ok a).

Definition bind {A B} (m : M A) (k : A -> M B) : M B :=
  fun s =>
    match m s with
    | (s', Ok a) => k a s'
    | (s', Raise e) => (s', Raise e)
    end.

Definition raise {A} (e : exn) : M A := fun s => (s, Raise e).

(** try: body / except Exception as e: handler e *)
Definition try_except {A} (body : M A) (handler : exn -> M A) : M A :=
  fun s =>
    match body s with
    | (s', Ok a) => (s', Ok a)
    | (s', Raise e) => handler e s'
    end.

Declare Scope monad_scope.
Delimit Scope monad_scope with monad.
Notation "x <- m ;; k" := (bind m (fun x => k))
  (at level 61, m at next level, right associativity) : monad_scope.
Notation "m ;; k" := (bind m (fun _ => k))
  (at level 61, right associativity) : monad_scope.
Local Open Scope monad_scope.

Definition set_faults (fs : list (option string)) (s : Session) : Session :=
  mkSession (table s) (sequence s) (clock s) (objs s) (new s) (deleted s) fs
    (server s) (rollbacks s).

Definition set_objs (os : list AttendanceRecord) (s : Session) : Session :=
  mkSession (table s) (sequence s) (clock s) os (new s) (deleted s) (faults s)
    (server s) (rollbacks s).

(** The session with this table and this sequence and nothing pending. *)
Definition settled (rows : list AttendanceRecord) (seq : Z) (s : Session)
  : Session :=
  mkSession rows seq (clock s) (objs s) [] [] (faults s) (server s)
    (rollbacks s).

(** One round trip to the database: it succeeds, or the persistence
    layer raises. *)
Definition round_trip : M unit :=
  fun s =>
    match faults s with
    | [] => (s, Ok tt)
    | None :: fs => (set_faults fs s, Ok tt)
    | Some text :: fs => (set_faults fs s, Raise (SQLAlchemyError text))
    end.

Fixpoint list_set {A} (n : nat) (a : A) (l : list A) : list A :=
  match l, n with
  | [], _ => []
  | _ :: l', O => a :: l'
  | x :: l', S n' => x :: list_set n' a l'
  end.

(** db.add(obj): the object joins the session, pending INSERT.  The
    handle stands for the Python reference to the object. *)
Definition add (obj : AttendanceRecord) : M nat :=
  fun s =>
    let h := List.length (objs s) in
    (mkSession (table s) (sequence s) (clock s) (objs s ++ [obj])
               (new s ++ [h]) (deleted s) (faults s) (server s)
               (rollbacks s),
     Ok h).

(** db.delete(obj): the row of the object is pending DELETE. *)
Definition delete (obj : AttendanceRecord) : M unit :=
  fun s =>
    match id obj with
    | Some pk =>
        (mkSession (table s) (sequence s) (clock s) (objs s) (new s)
                   (deleted s ++ [pk]) (faults s) (server s) (rollbacks s),
         Ok tt)
    | None => (s, Raise (SQLAlchemyError "Instance is not persisted"))
    end.

(** The value a column without time zone keeps of a datetime: a naive
    value as it is, an aware value as the wall clock of the time zone of
    the server at that instant, the offset being dropped. *)
Definition to_column (srv : Server) (t : datetime) : datetime :=
  match utcoffset t with
  | None => t
  | Some off => naive (wall t - off + zone srv (wall t - off))
  end.

(** INSERT of one pending object: the primary key comes from the
    sequence when the object has none, [created_at] from the server
    default; the object learns its primary key. *)
Definition insert_row (s : Session) (h : nat) : Session :=
  match nth_error (objs s) h with
  | None => s
  | Some obj =>
      let pk := match id obj with Some i => i | None => sequence s end in
      let seq' := match id obj with
                  | Some _ => sequence s
                  | None => sequence s + 1
                  end in
      let created := match created_at obj with
                     | Some c => Some c
                     | None => Some (clock s)
                     end in
      let row := with_timestamp (to_column (server s) (timestamp obj))
                   (with_created_at created (with_id (Some pk) obj)) in
      mkSession (table s ++ [row]) seq' (clock s)
                (list_set h (with_id (Some pk) obj) (objs s))
                (new s) (deleted s) (faults s) (server s) (rollbacks s)
  end.

Definition pending_delete (pks : list Z) (r : AttendanceRecord) : bool :=
  existsb (fun pk => id_is pk r) pks.

(** The flush of the unit of work: INSERTs, then DELETEs. *)
Definition flush (s : Session) : Session :=
  let s1 := fold_left insert_row (new s) s in
  settled (filter (fun r => negb (pending_delete (deleted s) r)) (table s1))
    (sequence s1) s1.

(** Does the text hold the character NUL. *)
Fixpoint has_nul (v : string) : bool :=
  match v with
  | EmptyString => false
  | String c v' => (c =? zero)%char || has_nul v'
  end.

(** The driver refuses to send a string that holds NUL. *)
Definition refused (obj : AttendanceRecord) : bool :=
  has_nul (student_name obj) || has_nul (student_id obj)
  || has_nul (status obj).

Definition nul_refused : exn :=
  ValueError "A string literal cannot contain NUL (0x00) characters.".

(** The objects pending INSERT. *)
Definition pending (s : Session) : list AttendanceRecord :=
  flat_map (fun h => match nth_error (objs s) h with
                     | Some obj => [obj]
                     | None => []
                     end) (new s).

(** db.commit(): the flush, then COMMIT.  When it raises, the table is
    as before and the session keeps nothing pending; the id sequence has
    moved all the same when the INSERT had reached the server. *)
Definition commit : M unit :=
  fun s =>
    match round_trip s with
    | (s1, Raise (SQLAlchemyError text)) =>
        (settled (table s1)
           (if sent (server s1) text && negb (existsb refused (pending s1))
            then sequence (flush s1)
            else sequence s1) s1,
         Raise (SQLAlchemyError text))
    | (s1, Raise e) => (settled (table s1) (sequence s1) s1, Raise e)
    | (s1, Ok _) =>
        if existsb refused (pending s1)
        then (settled (table s1) (sequence s1) s1, Raise nul_refused)
        else (flush s1, Ok tt)
    end.

(** db.rollback(): the pending unit of work is discarded. *)
Definition rollback : M unit :=
  fun s =>
    (mkSession (table s) (sequence s) (clock s) (objs s) [] [] (faults s)
       (server s) (S (rollbacks s)),
     Ok tt).

(** db.refresh(obj): the attributes of the object are loaded again from
    its row. *)
Definition refresh (h : nat) : M unit :=
  round_trip ;;
  (fun s =>
     match nth_error (objs s) h with
     | Some obj =>
         match id obj with
         | Some pk =>
             match find (id_is pk) (table s) with
             | Some row => (set_objs (list_set h row (objs s)) s, Ok tt)
             | None => (s, Raise (SQLAlchemyError "Could not refresh instance"))
             end
         | None => (s, Raise (SQLAlchemyError "Instance is not persistent"))
         end
     | None => (s, Raise (SQLAlchemyError "Instance is not persistent"))
     end).

(** Reading the object behind a handle. *)
Definition deref (h : nat) : M AttendanceRecord :=
  fun s =>
    match nth_error (objs s) h with
    | Some obj => (s, Ok obj)
    | None => (s, Raise (SQLAlchemyError "Instance is not persistent"))
    end.

(** *** Queries: db.query(AttendanceRecord)... *)

(** The criteria of the filters of crud.py, with their bound value. *)
Inductive Criterion :=
| student_id_eq (v : option string)   (* AttendanceRecord.student_id == v *)
| id_eq (k : Z).                      (* AttendanceRecord.id == k *)

Definition holds (c : Criterion) (r : AttendanceRecord) : bool :=
  match c with
  | student_id_eq (Some v) => (student_id r =? v)%string
  | student_id_eq None => false
  | id_eq k => id_is k r
  end.

(** The text the driver has to send for a criterion. *)
Definition bound_text (c : Criterion) : list string :=
  match c with
  | student_id_eq (Some v) => [v]
  | _ => []
  end.

Record Query := mkQuery {
  where_ : list Criterion;   (* .filter(...) *)
  order_by_ : bool;          (* .order_by(desc(timestamp)) *)
  offset_ : option Z;        (* .offset(n) *)
  limit_ : option Z          (* .limit(n) *)
}.

Definition query : Query := mkQuery [] false None None.

Definition filter_ (c : Criterion) (q : Query) : Query :=
  mkQuery (where_ q ++ [c]) (order_by_ q) (offset_ q) (limit_ q).

Definition order_by_desc_timestamp (q : Query) : Query :=
  mkQuery (where_ q) true (offset_ q) (limit_ q).

Definition offset (n : Z) (q : Query) : Query :=
  mkQuery (where_ q) (order_by_ q) (Some n) (limit_ q).

Definition limit (n : Z) (q : Query) : Query :=
  mkQuery (where_ q) (order_by_ q) (offset_ q) (Some n).

(** Does [r] come before [x] under ORDER BY timestamp DESC: a later
    timestamp first, the rank of the server between equal timestamps. *)
Definition before (rank : AttendanceRecord -> Z) (r x : AttendanceRecord)
  : bool :=
  (wall (timestamp x) <? wall (timestamp r))
  || ((wall (timestamp x) =? wall (timestamp r)) && (rank r <=? rank x)).

Fixpoint insert_desc (rank : AttendanceRecord -> Z) (r : AttendanceRecord)
         (l : list AttendanceRecord) : list AttendanceRecord :=
  match l with
  | [] => [r]
  | x :: l' =>
      if before rank r x then r :: l
      else x :: insert_desc rank r l'
  end.

(** ORDER BY timestamp DESC: the order of the rows of equal timestamp
    is the one of the server. *)
Definition sort_desc (rank : AttendanceRecord -> Z)
           (l : list AttendanceRecord) : list AttendanceRecord :=
  fold_right (insert_desc rank) [] l.

Definition matching (q : Query) (rows : list AttendanceRecord)
  : list AttendanceRecord :=
  filter (fun r => forallb (fun c => holds c r) (where_ q)) rows.

(** The largest bigint of PostgreSQL. *)
Definition bigint_max : Z := 9223372036854775807.

(** OFFSET and LIMIT are read as bigint and must not be negative. *)
Definition row_count (clause : string) (n : option Z) : result (option nat) :=
  match n with
  | None => Ok None
  | Some n =>
      if n <? 0
      then Raise (SQLAlchemyError (clause ++ " must not be negative"))
      else if bigint_max <? n
      then Raise (SQLAlchemyError
                    "(psycopg2.errors.NumericValueOutOfRange) bigint out of range")
      else Ok (Some (Z.to_nat n))
  end.

(** SELECT ... WHERE ... ORDER BY ... LIMIT ... OFFSET ...: the driver
    refuses a bound text that holds NUL, the server an OFFSET or a LIMIT
    that is negative or beyond bigint. *)
Definition select (srv : Server) (q : Query) (rows : list AttendanceRecord)
  : result (list AttendanceRecord) :=
  if existsb has_nul (flat_map bound_text (where_ q)) then Raise nul_refused
  else
    let found := matching q rows in
    let ordered :=
      if order_by_ q
      then sort_desc (ties srv (offset_ q) (limit_ q) found) found
      else found in
    match row_count "OFFSET" (offset_ q) with
    | Raise e => Raise e
    | Ok skipped =>
        match row_count "LIMIT" (limit_ q) with
        | Raise e => Raise e
        | Ok kept =>
            let rest := match skipped with
                        | Some n => skipn n ordered
                        | None => ordered
                        end in
            Ok (match kept with
                | Some m => firstn m rest
                | None => rest
                end)
        end
    end.

Definition execute (q : Query) : M (list AttendanceRecord) :=
  round_trip ;; (fun s => (s, select (server s) q (table s))).

(** .all() *)
Definition all (q : Query) : M (list AttendanceRecord) := execute q.

(** .first(): LIMIT 1, the first row or None. *)
Definition first (q : Query) : M (option AttendanceRecord) :=
  rows <- execute (limit 1 q) ;; ret (hd_error rows).

(** .count(): the number of rows of the query. *)
Definition count (q : Query) : M Z :=
  rows <- execute q ;; ret (Z.of_nat (List.length rows)).

End orm.

(* ================================================================== *)
(** ** schemas.py *)

Module schemas.

(** The JSON body of a POST as it arrives.  The coercion of JSON values
    to Python types is pydantic's; the timestamp is kept as text, its
    parser being a parameter of [validate].  [raw_extra] holds the
    fields the schema does not know. *)
Record Payload := mkPayload {
  raw_student_name : string;
  raw_student_id : string;
  raw_timestamp : string;
  raw_bluetooth_signal_strength : option Z;
  raw_status : string;
  raw_extra : list (string * string)
}.

(** class AttendanceV1Create(AttendanceV1Base): a validated body. *)
Record AttendanceV1Create := mkAttendanceV1Create {
  student_name : string;
  student_id : string;
  timestamp : models.datetime;
  bluetooth_signal_strength : option Z;
  status : string
}.

(** One entry of a pydantic validation error: the field and the kind. *)
Definition ErrorDetails := (string * string)%type.

(** Field(..., min_length=lo, max_length=hi) *)
Definition check_length (loc : string) (lo hi : nat) (v : string)
  : list ErrorDetails :=
  if (String.length v <? lo)%nat then [(loc, "string_too_short")]
  else if (hi <? String.length v)%nat then [(loc, "string_too_long")]
  else [].

(** Field(None, ge=-100, le=0) on an Optional[int] *)
Definition check_range (loc : string) (lo hi : Z) (v : option Z)
  : list ErrorDetails :=
  match v with
  | None => []
  | Some n =>
      if n <? lo then [(loc, "greater_than_equal")]
      else if hi <? n then [(loc, "less_than_equal")]
      else []
  end.

(** pattern=r"^(present|absent|late)$": both anchors are those of the
    whole text. *)
Definition status_pattern (v : string) : bool :=
  (v =? "present")%string || (v =? "absent")%string || (v =? "late")%string.

Definition check_pattern (loc : string) (v : string) : list ErrorDetails :=
  if status_pattern v then [] else [(loc, "string_pattern_mismatch")].

Section Validation.

(** pydantic's datetime parser. *)
Variable parse_datetime : string -> option models.datetime.

Definition check_datetime (loc : string) (v : string) : list ErrorDetails :=
  match parse_datetime v with
  | Some _ => []
  | None => [(loc, "datetime_from_date_parsing")]
  end.

(** AttendanceV1Create.model_validate(body): the model, or every error
    found.  extra='ignore' drops [raw_extra]. *)
Definition validate (p : Payload) : AttendanceV1Create + list ErrorDetails :=
  let errors :=
    check_length "student_name" 1 100 (raw_student_name p)
    ++ check_length "student_id" 1 50 (raw_student_id p)
    ++ check_datetime "timestamp" (raw_timestamp p)
    ++ check_range "bluetooth_signal_strength" (-100) 0
         (raw_bluetooth_signal_strength p)
    ++ check_pattern "status" (raw_status p) in
  match errors, parse_datetime (raw_timestamp p) with
  | [], Some t =>
      inl (mkAttendanceV1Create (raw_student_name p) (raw_student_id p) t
             (raw_bluetooth_signal_strength p) (raw_status p))
  | _, _ => inr errors
  end.

End Validation.

(** class MessageResponse(BaseModel) *)
Record MessageResponse := mkMessageResponse { message : string }.

(** class AttendanceV1ListResponse(BaseModel) *)
Record AttendanceV1ListResponse := mkAttendanceV1ListResponse {
  total : Z;
  records : list models.AttendanceRecord
}.

(** class AttendanceV2Create(AttendanceV2Base): pass.  No field is
    declared, every body validates. *)
Inductive AttendanceV2Create := mkAttendanceV2Create.
Inductive AttendanceV2Response := mkAttendanceV2Response.

Definition validate_v2 (p : Payload) : AttendanceV2Create :=
  mkAttendanceV2Create.

End schemas.

(* ================================================================== *)
(** ** crud.py *)

Module crud.
Import orm.
Local Open Scope monad_scope.

(** [if student_id:] on an Optional[str]: None and the empty string are
    both false. *)
Definition truthy (student_id : option string) : bool :=
  match student_id with
  | None => false
  | Some v => negb (v =? EmptyString)%string
  end.

Definition create_attendance_record (attendance : schemas.AttendanceV1Create)
  : M models.AttendanceRecord :=
  let db_attendance :=
    models.mkAttendanceRecord None
      (schemas.student_name attendance)
      (schemas.student_id attendance)
      (schemas.timestamp attendance)
      (schemas.bluetooth_signal_strength attendance)
      (schemas.status attendance)
      None None in
  try_except
    (h <- add db_attendance ;;
     commit ;;
     refresh h ;;
     deref h)
    (fun e => rollback ;; raise e).

Definition get_attendance_records (skip limit : Z) (student_id : option string)
  : M (list models.AttendanceRecord) :=
  let query := orm.query in
  let query :=
    if truthy student_id then filter_ (student_id_eq student_id) query
    else query in
  all (orm.limit limit (offset skip (order_by_desc_timestamp query))).

Definition get_attendance_by_id (record_id : Z)
  : M (option models.AttendanceRecord) :=
  first (filter_ (id_eq record_id) orm.query).

Definition get_total_count (student_id : option string) : M Z :=
  let query := orm.query in
  let query :=
    if truthy student_id then filter_ (student_id_eq student_id) query
    else query in
  count query.

Definition delete_attendance_record (record_id : Z) : M bool :=
  record <- get_attendance_by_id record_id ;;
  match record with
  | Some r =>
      delete r ;;
      commit ;;
      ret true
  | None => ret false
  end.

End crud.

(* ================================================================== *)
(** ** routers/attendance_v1.py *)

Module attendance_v1.
Import orm.
Local Open Scope monad_scope.

(** str(n) of a Python int *)
Definition str_int (n : Z) : string := NilZero.string_of_int (Z.to_int n).

(** str(e) *)
Definition str (e : exn) : string :=
  match e with
  | SQLAlchemyError text => text
  | ValueError text => text
  | HTTPException status_code detail =>
      (str_int status_code ++ ": " ++ detail)%string
  end.

Definition HTTP_201_CREATED : Z := 201.
Definition HTTP_404_NOT_FOUND : Z := 404.
Definition HTTP_500_INTERNAL_SERVER_ERROR : Z := 500.

Definition create_attendance (attendance : schemas.AttendanceV1Create)
  : M schemas.MessageResponse :=
  try_except
    (db_record <- crud.create_attendance_record attendance ;;
     ret (schemas.mkMessageResponse "Attendance record stored successfully"))
    (fun e =>
       raise (HTTPException HTTP_500_INTERNAL_SERVER_ERROR
                ("Failed to store attendance record: " ++ str e)%string)).

Definition get_attendance_list (skip limit : Z) (student_id : option string)
  : M schemas.AttendanceV1ListResponse :=
  try_except
    (records <- crud.get_attendance_records skip limit student_id ;;
     total <- crud.get_total_count student_id ;;
     ret (schemas.mkAttendanceV1ListResponse total records))
    (fun e =>
       raise (HTTPException HTTP_500_INTERNAL_SERVER_ERROR
                ("Failed to retrieve attendance records: " ++ str e)%string)).

Definition not_found_detail (record_id : Z) : string :=
  ("Attendance record with ID " ++ str_int record_id ++ " not found")%string.

Definition get_attendance_by_id (record_id : Z) : M models.AttendanceRecord :=
  try_except
    (record <- crud.get_attendance_by_id record_id ;;
     match record with
     | None =>
         raise (HTTPException HTTP_404_NOT_FOUND (not_found_detail record_id))
     | Some r => ret r
     end)
    (fun e =>
       match e with
       | HTTPException _ _ => raise e
       | _ =>
           raise (HTTPException HTTP_500_INTERNAL_SERVER_ERROR
                    ("Failed to retrieve attendance record: " ++ str e)%string)
       end).

Definition delete_attendance (record_id : Z) : M schemas.MessageResponse :=
  try_except
    (deleted <- crud.delete_attendance_record record_id ;;
     if negb deleted then
       raise (HTTPException HTTP_404_NOT_FOUND (not_found_detail record_id))
     else
       ret (schemas.mkMessageResponse "Attendance record deleted successfully"))
    (fun e =>
       match e with
       | HTTPException _ _ => raise e
       | _ =>
           raise (HTTPException HTTP_500_INTERNAL_SERVER_ERROR
                    ("Failed to delete attendance record: " ++ str e)%string)
       end).

End attendance_v1.

(* ================================================================== *)
(** ** routers/attendance_v2.py *)

Module attendance_v2.
Import orm.

Definition HTTP_501_NOT_IMPLEMENTED : Z := 501.

Definition not_implemented_detail : string :=
  "API version 2 is not yet implemented. Please use /api/v1/attendance/".

Definition create_attendance_v2 (attendance : schemas.AttendanceV2Create)
  : M schemas.MessageResponse :=
  raise (HTTPException HTTP_501_NOT_IMPLEMENTED not_implemented_detail).

Definition get_attendance_list_v2 : M (list schemas.AttendanceV2Response) :=
  raise (HTTPException HTTP_501_NOT_IMPLEMENTED not_implemented_detail).

End attendance_v2.

(* ================================================================== *)
(** ** main.py: the application and its routes *)

Module main.
Import orm.

(** The method of a request: the seven of the CORS middleware, or any
    other token. *)
Inductive Method :=
| GET | POST | PUT | DELETE | HEAD | OPTIONS | PATCH
| OTHER (token : string).

Definition method_eqb (a b : Method) : bool :=
  match a, b with
  | GET, GET | POST, POST | PUT, PUT | DELETE, DELETE
  | HEAD, HEAD | OPTIONS, OPTIONS | PATCH, PATCH => true
  | OTHER x, OTHER y => (x =? y)%string
  | _, _ => false
  end.

(** A request: method, path, the query parameters of the list route and
    the JSON body. *)
Record Request := mkRequest {
  method : Method;
  path : string;
  skip : option Z;
  limit : option Z;
  student_id : option string;
  body : schemas.Payload
}.

Inductive Content :=
| Message (m : schemas.MessageResponse)
| Listing (l : schemas.AttendanceV1ListResponse)
| Row (r : models.AttendanceRecord)
| RowsV2 (l : list schemas.AttendanceV2Response)
| Detail (detail : string)
| Errors (errors : list schemas.ErrorDetails)
| Fields (fields : list (string * string))
| Text (text : string)
| Location (url : string).

Record Response := mkResponse {
  status_code : Z;
  content : Content
}.

(** The functions a route can lead to. *)
Inductive Endpoint :=
| openapi | swagger_ui_html | swagger_ui_redirect | redoc_html
| create_attendance | get_attendance_list
| get_attendance_by_id | delete_attendance
| create_attendance_v2 | get_attendance_list_v2
| root | health_check.

(** A route path without parameter, or [prefix ++ "{param}"]. *)
Inductive Pattern :=
| Exact (p : string)
| Param (prefix : string).

Record Route := mkRoute {
  route_method : Method;
  route_path : Pattern;
  endpoint : Endpoint
}.

(** The decorators of routers/attendance_v1.py. *)
Definition attendance_v1_router : list Route :=
  [ mkRoute POST (Exact "/attendance/") create_attendance;
    mkRoute GET (Exact "/attendance/") get_attendance_list;
    mkRoute GET (Param "/attendance/") get_attendance_by_id;
    mkRoute DELETE (Param "/attendance/") delete_attendance ].

(** The decorators of routers/attendance_v2.py. *)
Definition attendance_v2_router : list Route :=
  [ mkRoute POST (Exact "/attendance/") create_attendance_v2;
    mkRoute GET (Exact "/attendance/") get_attendance_list_v2 ].

Definition add_prefix (prefix : string) (r : Route) : Route :=
  mkRoute (route_method r)
    match route_path r with
    | Exact p => Exact (prefix ++ p)
    | Param p => Param (prefix ++ p)
    end
    (endpoint r).

Definition include_router (router : list Route) (prefix : string)
  : list Route :=
  map (add_prefix prefix) router.

(** app = FastAPI(docs_url="/api/docs", redoc_url="/api/redoc"): the
    routes of the documentation, which answer GET and HEAD. *)
Definition FastAPI : list Route :=
  [ mkRoute GET (Exact "/openapi.json") openapi;
    mkRoute HEAD (Exact "/openapi.json") openapi;
    mkRoute GET (Exact "/api/docs") swagger_ui_html;
    mkRoute HEAD (Exact "/api/docs") swagger_ui_html;
    mkRoute GET (Exact "/api/docs/oauth2-redirect") swagger_ui_redirect;
    mkRoute HEAD (Exact "/api/docs/oauth2-redirect") swagger_ui_redirect;
    mkRoute GET (Exact "/api/redoc") redoc_html;
    mkRoute HEAD (Exact "/api/redoc") redoc_html ].

(** The routes of [app], in the order main.py adds them: only the v1
    router is included. *)
Definition routes : list Route :=
  FastAPI
  ++ include_router attendance_v1_router "/api/v1"
  ++ [ mkRoute GET (Exact "/") root;
       mkRoute GET (Exact "/api/health") health_check ].

(** Does the path fit the pattern, and with which parameter text. *)
Definition match_path (pat : Pattern) (p : string) : option string :=
  match pat with
  | Exact e => if (p =? e)%string then Some EmptyString else None
  | Param prefix =>
      if String.prefix prefix p then
        let seg := substring (String.length prefix)
                     (String.length p - String.length prefix) p in
        if (seg =? EmptyString)%string then None
        else match index 0 "/" seg with
             | Some _ => None
             | None => Some seg
             end
      else None
  end.

Inductive Match :=
| FULL (e : Endpoint) (param : string)
| PARTIAL
| NONE.

(** The first route that fits path and method; failing that, whether
    some route fits the path alone. *)
Fixpoint resolve (rs : list Route) (m : Method) (p : string) : Match :=
  match rs with
  | [] => NONE
  | r :: rest =>
      match match_path (route_path r) p with
      | Some param =>
          if method_eqb (route_method r) m then FULL (endpoint r) param
          else match resolve rest m p with
               | FULL e a => FULL e a
               | _ => PARTIAL
               end
      | None => resolve rest m p
      end
  end.

(** The path with its final slash added or removed. *)
Definition toggle_slash (p : string) : string :=
  let n := String.length p in
  if (substring (n - 1) 1 p =? "/")%string then substring 0 (n - 1) p
  else (p ++ "/")%string.

(** What FastAPI makes of the outcome of a handler. *)
Definition respond {A} (status : Z) (wrap : A -> Content) (handler : M A)
  : Session -> Session * Response :=
  fun db =>
    match handler db with
    | (db', Ok a) => (db', mkResponse status (wrap a))
    | (db', Raise (HTTPException code detail)) =>
        (db', mkResponse code (Detail detail))
    | (db', Raise _) =>
        (db', mkResponse 500 (Text "Internal Server Error"))
    end.

Definition unprocessable (errors : list schemas.ErrorDetails) : Response :=
  mkResponse 422 (Errors errors).

(** Query(0, ge=0), Query(100, ge=1, le=500) *)
Definition check_query (req : Request) : (Z * Z) + list schemas.ErrorDetails :=
  let skip_ := match skip req with Some n => n | None => 0 end in
  let limit_ := match limit req with Some n => n | None => 100 end in
  let errors :=
    (if skip_ <? 0 then [("skip", "greater_than_equal")] else [])
    ++ (if limit_ <? 1 then [("limit", "greater_than_equal")]
        else if 500 <? limit_ then [("limit", "less_than_equal")]
        else []) in
  match errors with
  | [] => inl (skip_, limit_)
  | _ => inr errors
  end.

(** *** record_id: int, from the text of the path parameter *)

Definition is_space (c : ascii) : bool :=
  let n := nat_of_ascii c in
  ((9 <=? n) && (n <=? 13) || (n =? 32) || (n =? 133) || (n =? 160))%nat.

Definition is_digit (c : ascii) : bool :=
  ((48 <=? nat_of_ascii c) && (nat_of_ascii c <=? 57))%nat.

Fixpoint ltrim (v : string) : string :=
  match v with
  | String c v' => if is_space c then ltrim v' else v
  | EmptyString => EmptyString
  end.

Fixpoint reverse (v acc : string) : string :=
  match v with
  | String c v' => reverse v' (String c acc)
  | EmptyString => acc
  end.

Definition trim (v : string) : string :=
  reverse (ltrim (reverse (ltrim v) EmptyString)) EmptyString.

Definition strip_plus (v : string) : string :=
  match v with
  | String c v' => if (c =? "+")%char then v' else v
  | EmptyString => EmptyString
  end.

Fixpoint all_zeros (v : string) : bool :=
  match v with
  | String c v' => (c =? "0")%char && all_zeros v'
  | EmptyString => true
  end.

(** A fraction made of zeros only is dropped. *)
Definition strip_fraction (v : string) : string :=
  match index 0 "." v with
  | Some i =>
      let fraction := substring (i + 1) (String.length v - i - 1) v in
      if all_zeros fraction then substring 0 i v
      else v
  | None => v
  end.

(** An underscore between two digits is dropped. *)
Fixpoint strip_underscores (after_digit : bool) (v : string) : string :=
  match v with
  | String c v' =>
      let before_digit := match v' with
                          | String d _ => is_digit d
                          | EmptyString => false
                          end in
      if (c =? "_")%char && after_digit && before_digit
      then strip_underscores false v'
      else String c (strip_underscores (is_digit c) v')
  | EmptyString => EmptyString
  end.

(** The integer of the text, which must hold a digit: decimal digits
    with an optional minus sign and, failing that, the other spellings
    pydantic takes for an int: white space around, a leading plus sign,
    underscores between digits, a fraction of zeros. *)
Definition path_int (param : string) : option Z :=
  if existsb is_digit (list_ascii_of_string param)
  then option_map Z.of_int
         match NilZero.int_of_string param with
         | Some d => Some d
         | None =>
             NilZero.int_of_string
               (strip_underscores false
                  (strip_fraction (strip_plus (trim param))))
         end
  else None.

Section App.

Variable parse_datetime : string -> option models.datetime.

(** Validation of the request, then the handler, on the session [db]
    that the dependency get_db hands to the handler. *)
Definition call (e : Endpoint) (param : string) (req : Request)
  : Session -> Session * Response :=
  fun db =>
    match e with
    | create_attendance =>
        match schemas.validate parse_datetime (body req) with
        | inl attendance =>
            respond attendance_v1.HTTP_201_CREATED Message
              (attendance_v1.create_attendance attendance) db
        | inr errors => (db, unprocessable errors)
        end
    | get_attendance_list =>
        match check_query req with
        | inl (skip_, limit_) =>
            respond 200 Listing
              (attendance_v1.get_attendance_list skip_ limit_ (student_id req))
              db
        | inr errors => (db, unprocessable errors)
        end
    | get_attendance_by_id =>
        match path_int param with
        | Some record_id =>
            respond 200 Row (attendance_v1.get_attendance_by_id record_id) db
        | None => (db, unprocessable [("record_id", "int_parsing")])
        end
    | delete_attendance =>
        match path_int param with
        | Some record_id =>
            respond 200 Message (attendance_v1.delete_attendance record_id) db
        | None => (db, unprocessable [("record_id", "int_parsing")])
        end
    | create_attendance_v2 =>
        respond attendance_v2.HTTP_501_NOT_IMPLEMENTED Message
          (attendance_v2.create_attendance_v2 (schemas.validate_v2 (body req)))
          db
    | get_attendance_list_v2 =>
        respond attendance_v2.HTTP_501_NOT_IMPLEMENTED RowsV2
          attendance_v2.get_attendance_list_v2 db
    | root =>
        (db, mkResponse 200
               (Fields [("status", "online");
                        ("message", "Mobile Attendance System API");
                        ("version", "1.0.0")]))
    | health_check =>
        (db, mkResponse 200
               (Fields [("status", "healthy");
                        ("database", "connected");
                        ("api_version", "v1")]))
    | openapi => (db, mkResponse 200 (Text "openapi"))
    | swagger_ui_html => (db, mkResponse 200 (Text "swagger"))
    | swagger_ui_redirect => (db, mkResponse 200 (Text "oauth2-redirect"))
    | redoc_html => (db, mkResponse 200 (Text "redoc"))
    end.

(** The application: the route of the request, else 405 when only the
    path fits, else a redirect when the path fits with its final slash
    toggled, else 404. *)
Definition app (req : Request) : Session -> Session * Response :=
  fun db =>
    match resolve routes (method req) (path req) with
    | FULL e param => call e param req db
    | PARTIAL => (db, mkResponse 405 (Detail "Method Not Allowed"))
    | NONE =>
        match resolve routes (method req) (toggle_slash (path req)) with
        | NONE => (db, mkResponse 404 (Detail "Not Found"))
        | _ =>
            if (path req =? "/")%string
            then (db, mkResponse 404 (Detail "Not Found"))
            else (db, mkResponse 307 (Location (toggle_slash (path req))))
        end
    end.

(** *** app.add_middleware(CORSMiddleware, allow_origins=["*"],
    allow_credentials=True, allow_methods=["*"], allow_headers=["*"]) *)

(** A request as the middleware sees it: the request and the two
    headers it reads. *)
Record Http := mkHttp {
  request : Request;
  origin : option string;
  access_control_request_method : option string
}.

Definition ALL_METHODS : list string :=
  ["DELETE"; "GET"; "HEAD"; "OPTIONS"; "PATCH"; "POST"; "PUT"].

(** A preflight (OPTIONS with Origin and Access-Control-Request-Method)
    is answered by the middleware; any other request goes to the
    application. *)
Definition CORSMiddleware (inner : Request -> Session -> Session * Response)
           (h : Http) : Session -> Session * Response :=
  fun db =>
    match origin h, method (request h), access_control_request_method h with
    | Some _, OPTIONS, Some requested =>
        if existsb (String.eqb requested) ALL_METHODS
        then (db, mkResponse 200 (Text "OK"))
        else (db, mkResponse 400 (Text "Disallowed CORS method"))
    | _, _, _ => inner (request h) db
    end.

(** The application with its middleware. *)
Definition application : Http -> Session -> Session * Response :=
  CORSMiddleware app.

End App.

End main.

(* ================================================================== *)
(** ** Vocabulary of the properties *)

Module props.
Import orm.

(** The persistence layer does not raise in the coming round trips: the
    connection holds and the server answers each of them. *)
Definition reliable (db : Session) : Prop :=
  Forall (fun f => f = None) (faults db).

(** No unit of work is pending: the state of a session between two calls
    of the data access layer. *)
Definition idle (db : Session) : Prop :=
  new db = [] /\ deleted db = [].

(** The primary key of the table and its sequence: every row has an id,
    the ids are pairwise distinct and all below the next value of the
    sequence. *)
Definition integrity (db : Session) : Prop :=
  NoDup (map models.id (table db))
  /\ Forall (fun r => exists i, models.id r = Some i /\ i < sequence db)
       (table db).

(** Two sessions with the same database, identity map and unit of work,
    and as many calls of rollback(); only the played round trips
    differ. *)
Definition same_store (db db' : Session) : Prop :=
  db' = set_faults (faults db') db.

(** The rows of a student. *)
Definition rows_of_student (x : string) (rows : list models.AttendanceRecord)
  : list models.AttendanceRecord :=
  filter (fun r => (models.student_id r =? x)%string) rows.

(** The matching records of a list or count request: every row when no
    student_id is supplied or when it is the empty string, the rows of
    the student otherwise. *)
Definition eligible (student_id : option string)
           (rows : list models.AttendanceRecord)
  : list models.AttendanceRecord :=
  match student_id with
  | None => rows
  | Some x => if (x =? EmptyString)%string then rows
              else rows_of_student x rows
  end.

(** Most recent first. *)
Definition newest_first (l : list models.AttendanceRecord) : Prop :=
  StronglySorted
    (fun a b => models.wall (models.timestamp b)
                <= models.wall (models.timestamp a)) l.

(** No two rows of the same timestamp. *)
Definition distinct_timestamps (l : list models.AttendanceRecord) : Prop :=
  NoDup (map (fun r => models.wall (models.timestamp r)) l).

(** A text without the character NUL. *)
Definition nul_free (v : string) : Prop :=
  ~ In zero (list_ascii_of_string v).

(** A validated body without NUL in its texts. *)
Definition storable (a : schemas.AttendanceV1Create) : Prop :=
  nul_free (schemas.student_name a)
  /\ nul_free (schemas.student_id a)
  /\ nul_free (schemas.status a).

(** A student_id filter without NUL, when there is one. *)
Definition filter_nul_free (student_id : option string) : Prop :=
  match student_id with
  | Some x => nul_free x
  | None => True
  end.

(** The row the store makes of a validated body. *)
Definition row_of (pk : Z) (now : models.datetime)
           (a : schemas.AttendanceV1Create) : models.AttendanceRecord :=
  models.mkAttendanceRecord (Some pk)
    (schemas.student_name a) (schemas.student_id a) (schemas.timestamp a)
    (schemas.bluetooth_signal_strength a) (schemas.status a)
    (Some now) None.

(** The object that create hands to db.add. *)
Definition pending_object (a : schemas.AttendanceV1Create)
  : models.AttendanceRecord :=
  models.mkAttendanceRecord None
    (schemas.student_name a) (schemas.student_id a) (schemas.timestamp a)
    (schemas.bluetooth_signal_strength a) (schemas.status a)
    None None.

(** The same row as the server [srv] keeps it: the timestamp as the
    column without time zone holds it. *)
Definition stored_row (srv : Server) (pk : Z) (now : models.datetime)
           (a : schemas.AttendanceV1Create) : models.AttendanceRecord :=
  models.with_timestamp (to_column srv (schemas.timestamp a))
    (row_of pk now a).

(** A body that breaks a field constraint, in the words of the
    specification. *)
Definition violates (parse_datetime : string -> option models.datetime)
           (p : schemas.Payload) : Prop :=
  schemas.raw_student_name p = EmptyString
  \/ (100 < String.length (schemas.raw_student_name p))%nat
  \/ schemas.raw_student_id p = EmptyString
  \/ (50 < String.length (schemas.raw_student_id p))%nat
  \/ parse_datetime (schemas.raw_timestamp p) = None
  \/ (exists n, schemas.raw_bluetooth_signal_strength p = Some n
                /\ (n < -100 \/ 0 < n))
  \/ (schemas.raw_status p <> "present"
      /\ schemas.raw_status p <> "absent"
      /\ schemas.raw_status p <> "late").

(** An exception of the persistence layer or of the driver. *)
Definition store_error (e : exn) : Prop :=
  (exists text, e = SQLAlchemyError text)
  \/ (exists text, e = ValueError text).

(** A computation that raises nothing but exceptions of the persistence
    layer or of the driver. *)
Definition raises_store_errors {A} (m : M A) : Prop :=
  forall db db' e, m db = (db', Raise e) -> store_error e.

(** A body that meets every field constraint. *)
Definition valid (parse_datetime : string -> option models.datetime)
           (p : schemas.Payload) : Prop :=
  (1 <= String.length (schemas.raw_student_name p) <= 100)%nat
  /\ (1 <= String.length (schemas.raw_student_id p) <= 50)%nat
  /\ parse_datetime (schemas.raw_timestamp p) <> None
  /\ (forall n, schemas.raw_bluetooth_signal_strength p = Some n ->
                -100 <= n <= 0)
  /\ (schemas.raw_status p = "present"
      \/ schemas.raw_status p = "absent"
      \/ schemas.raw_status p = "late").

(** A row that meets the field constraints of the schema. *)
Definition row_valid (r : models.AttendanceRecord) : Prop :=
  (1 <= String.length (models.student_name r) <= 100)%nat
  /\ (1 <= String.length (models.student_id r) <= 50)%nat
  /\ (forall n, models.bluetooth_signal_strength r = Some n -> -100 <= n <= 0)
  /\ (models.status r = "present"
      \/ models.status r = "absent"
      \/ models.status r = "late").

(** The constraint that an entry of a validation error stands for: the
    field named by [loc] breaks its constraint. *)
Definition field_violated (parse_datetime : string -> option models.datetime)
           (p : schemas.Payload) (loc : string) : Prop :=
  (loc = "student_name"
   /\ ~ (1 <= String.length (schemas.raw_student_name p) <= 100)%nat)
  \/ (loc = "student_id"
      /\ ~ (1 <= String.length (schemas.raw_student_id p) <= 50)%nat)
  \/ (loc = "timestamp" /\ parse_datetime (schemas.raw_timestamp p) = None)
  \/ (loc = "bluetooth_signal_strength"
      /\ exists n, schemas.raw_bluetooth_signal_strength p = Some n
                   /\ (n < -100 \/ 0 < n))
  \/ (loc = "status"
      /\ schemas.raw_status p <> "present"
      /\ schemas.raw_status p <> "absent"
      /\ schemas.raw_status p <> "late").

(** The errors that validate collects, whatever it answers. *)
Definition collected (parse_datetime : string -> option models.datetime)
           (p : schemas.Payload) : list schemas.ErrorDetails :=
  schemas.check_length "student_name" 1 100 (schemas.raw_student_name p)
  ++ schemas.check_length "student_id" 1 50 (schemas.raw_student_id p)
  ++ schemas.check_datetime parse_datetime "timestamp"
       (schemas.raw_timestamp p)
  ++ schemas.check_range "bluetooth_signal_strength" (-100) 0
       (schemas.raw_bluetooth_signal_strength p)
  ++ schemas.check_pattern "status" (schemas.raw_status p).

(** A computation that raises nothing but an HTTPException whose status
    is one of [codes]. *)
Definition raises_http (codes : list Z) {A} (m : M A) : Prop :=
  forall db db' e,
    m db = (db', Raise e) ->
    exists code detail, e = HTTPException code detail /\ In code codes.

(** What one request may do to the table: nothing, the id sequence
    staying or moving on; one row more made of the validated body; or
    the rows of one id less. *)
Definition table_step (parse_datetime : string -> option models.datetime)
           (req : main.Request) (db db' : Session) : Prop :=
  (table db' = table db /\ sequence db <= sequence db')
  \/ (exists a,
        schemas.validate parse_datetime (main.body req) = inl a
        /\ table db'
           = table db
             ++ [stored_row (server db) (sequence db) (clock db) a]
        /\ sequence db' = sequence db + 1)
  \/ (exists k,
        table db' = filter (fun r => negb (models.id_is k r)) (table db)
        /\ sequence db' = sequence db).

(** The requests of a list, served one after the other on the session. *)
Definition serve_all (parse_datetime : string -> option models.datetime)
           (reqs : list main.Request) (db : Session) : Session :=
  fold_left (fun s req => fst (main.app parse_datetime req s)) reqs db.

(** The round trips still to come in [db'] are the last ones of [db]. *)
Definition later (db db' : Session) : Prop :=
  exists used, faults db = used ++ faults db'.

(** A computation that touches the coming round trips only by using up
    the first ones. *)
Definition consumes {A} (m : M A) : Prop :=
  forall db db' r, m db = (db', r) -> later db db'.

(** A CORS preflight: OPTIONS with the headers Origin and
    Access-Control-Request-Method. *)
Definition preflight (h : main.Http) : Prop :=
  main.origin h <> None
  /\ main.method (main.request h) = main.OPTIONS
  /\ main.access_control_request_method h <> None.

(** GET /api/v1/attendance/ with its query parameters. *)
Definition get_attendance (skip limit : option Z) (student_id : option string)
           (b : schemas.Payload) : main.Request :=
  main.mkRequest main.GET "/api/v1/attendance/" skip limit student_id b.

(** POST /api/v1/attendance/ with a body. *)
Definition post_attendance (b : schemas.Payload) : main.Request :=
  main.mkRequest main.POST "/api/v1/attendance/" None None None b.

End props.

(* ================================================================== *)
(** ** Concrete inputs *)

Module samples.
Import orm.

(** A datetime parser that knows the timestamp of the example of the
    specification, without and with a UTC offset (+05:30 is 19800
    seconds). *)
Definition parse_example (v : string) : option models.datetime :=
  if (v =? "2025-11-08T10:30:00")%string
  then Some (models.naive 1762597800)
  else if (v =? "2025-11-08T10:30:00+05:30")%string
  then Some (models.aware 1762597800 19800)
  else None.

(** A server in the time zone UTC that keeps rows of equal timestamp in
    the order of their ids, except that it returns them in the opposite
    order when it is asked for another page than the first row alone. *)
Definition utc_server : Server :=
  mkServer
    (fun offset limit rows r =>
       let rank := match models.id r with Some pk => pk | None => 0 end in
       match offset, limit with
       | Some 0, Some 1 => rank
       | Some _, Some _ => - rank
       | _, _ => rank
       end)
    (fun text => (text =? "could not serialize access")%string)
    (fun instant => 0).

Definition john : schemas.Payload :=
  schemas.mkPayload "John Doe" "STU123" "2025-11-08T10:30:00"
    (Some (-45)) "present" [].

Definition john_valid : schemas.AttendanceV1Create :=
  schemas.mkAttendanceV1Create "John Doe" "STU123"
    (models.naive 1762597800) (Some (-45)) "present".



Definition now : models.datetime := models.aware 1762597805 0.

Definition empty_db : Session :=
  mkSession [] 1 now [] [] [] [] utc_server 0.

Definition john_row : models.AttendanceRecord :=
  props.row_of 1 now john_valid.

(** The database after the POST of the example. *)
Definition john_db : Session :=
  mkSession [john_row] 2 now [] [] [] [] utc_server 0.

(** The same database when the second round trip will raise. *)
Definition john_db_failing : Session :=
  mkSession [john_row] 2 now [] [] []
    [None; Some "server closed the connection unexpectedly"]
    utc_server 0.

(** Two rows of the same timestamp. *)
Definition twins_db : Session :=
  mkSession [john_row; props.row_of 2 now john_valid] 3 now [] [] [] []
    utc_server 0.

End samples.


(* ================================================================== *)
(** ** Lists *)

Section ListFacts.
Context {A : Type}.

Lemma nth_error_snoc (l : list A) (a : A) :
  nth_error (l ++ [a]) (List.length l) = Some a.
Proof.
  induction l as [|x l IH]; simpl; auto.
Qed.

Lemma list_set_snoc (l : list A) (a b : A) :
  orm.list_set (List.length l) b (l ++ [a]) = l ++ [b].
Proof.
  induction l as [|x l IH]; simpl; auto. now rewrite IH.
Qed.

Lemma filter_all (p : A -> bool) (l : list A) :
  (forall x, In x l -> p x = true) -> filter p l = l.
Proof.
  induction l as [|x l IH]; simpl; intros H; auto.
  rewrite (H x (or_introl eq_refl)). f_equal. apply IH. auto.
Qed.

Lemma filter_none (p : A -> bool) (l : list A) :
  (forall x, In x l -> p x = false) -> filter p l = [].
Proof.
  induction l as [|x l IH]; simpl; intros H; auto.
  rewrite (H x (or_introl eq_refl)). apply IH. auto.
Qed.

Lemma hd_firstn_filter (p : A -> bool) (l : list A) :
  hd_error (firstn 1 (filter p l)) = find p l.
Proof.
  induction l as [|x l IH]; simpl; auto.
  destruct (p x); simpl; auto.
Qed.

Lemma find_none_filter (p : A -> bool) (l : list A) :
  find p l = None -> filter p l = [].
Proof.
  intros H. apply filter_none. intros x Hx.
  destruct (p x) eqn:E; auto.
  now rewrite (find_none _ _ H x Hx) in E.
Qed.




End ListFacts.

(* ================================================================== *)
(** ** ORDER BY timestamp DESC *)

Section Ordering.
Import orm props.

Lemma insert_desc_perm rank r l : Permutation (insert_desc rank r l) (r :: l).
Proof.
  induction l as [|x l IH]; simpl; auto.
  destruct (before rank r x); auto.
  rewrite IH. apply perm_swap.
Qed.

Lemma sort_desc_perm rank l : Permutation (sort_desc rank l) l.
Proof.
  induction l as [|x l IH]; simpl; auto.
  rewrite insert_desc_perm. now constructor.
Qed.

Lemma before_true rank r x :
  before rank r x = true ->
  models.wall (models.timestamp x) <= models.wall (models.timestamp r).
Proof.
  unfold before. rewrite orb_true_iff, andb_true_iff, Z.ltb_lt, Z.eqb_eq.
  lia.
Qed.

Lemma before_false rank r x :
  before rank r x = false ->
  models.wall (models.timestamp r) <= models.wall (models.timestamp x).
Proof.
  unfold before. rewrite orb_false_iff, Z.ltb_ge. lia.
Qed.

Lemma insert_desc_sorted rank r l :
  newest_first l -> newest_first (insert_desc rank r l).
Proof.
  unfold newest_first.
  induction l as [|x l IH]; simpl; intros H.
  - repeat constructor.
  - inversion H as [|? ? Hs Hf]; subst.
    destruct (before rank r x) eqn:E.
    + apply before_true in E.
      constructor; auto. constructor; auto.
      rewrite Forall_forall in *. intros y Hy. specialize (Hf y Hy). lia.
    + apply before_false in E.
      constructor; auto.
      rewrite Forall_forall in *. intros y Hy.
      apply (Permutation_in _ (insert_desc_perm rank r l)) in Hy.
      destruct Hy as [<-|Hy]; [lia | auto].
Qed.

Lemma sort_desc_sorted rank l : newest_first (sort_desc rank l).
Proof.
  induction l as [|x l IH]; simpl.
  - constructor.
  - now apply insert_desc_sorted.
Qed.

(** Between rows of distinct timestamps the rank of the server has no
    say. *)
Lemma insert_desc_rank_free rank rank' r l :
  ~ In (models.wall (models.timestamp r))
       (map (fun x => models.wall (models.timestamp x)) l) ->
  insert_desc rank r l = insert_desc rank' r l.
Proof.
  induction l as [|x l IH]; simpl; intros H; auto.
  assert (E : before rank r x = before rank' r x).
  { unfold before.
    destruct (Z.eqb_spec (models.wall (models.timestamp x))
                (models.wall (models.timestamp r))) as [Q|Q].
    - exfalso. apply H. now left.
    - reflexivity. }
  rewrite E. destruct (before rank' r x); auto.
  f_equal. apply IH. intros I. apply H. now right.
Qed.

Lemma sort_desc_rank_free rank rank' l :
  distinct_timestamps l -> sort_desc rank l = sort_desc rank' l.
Proof.
  unfold distinct_timestamps.
  induction l as [|x l IH]; simpl; intros H; auto.
  inversion H as [|? ? N D]; subst.
  rewrite (IH D). apply insert_desc_rank_free.
  intros I. apply N.
  apply (Permutation_in _ (Permutation_map _ (sort_desc_perm rank' l)) I).
Qed.


End Ordering.

(* ================================================================== *)
(** ** Running the monad *)

Section Running.
Import orm.
Context {A B : Type}.

Lemma bind_ok (m : M A) (k : A -> M B) db db' a :
  m db = (db', Ok a) -> bind m k db = k a db'.
Proof. unfold bind. now intros ->. Qed.

Lemma bind_raise (m : M A) (k : A -> M B) db db' e :
  m db = (db', Raise e) -> bind m k db = (db', Raise e).
Proof. unfold bind. now intros ->. Qed.

Lemma try_ok (body : M A) (handler : exn -> M A) db db' a :
  body db = (db', Ok a) -> try_except body handler db = (db', Ok a).
Proof. unfold try_except. now intros ->. Qed.

Lemma try_raise (body : M A) (handler : exn -> M A) db db' e :
  body db = (db', Raise e) -> try_except body handler db = handler e db'.
Proof. unfold try_except. now intros ->. Qed.

End Running.

(* ================================================================== *)
(** ** The session primitives when the persistence layer does not raise *)

Section Reliable.
Import orm props.

Lemma set_faults_same db : set_faults (faults db) db = db.
Proof. now destruct db. Qed.

Lemma round_trip_reliable db :
  reliable db ->
  exists fs, round_trip db = (set_faults fs db, Ok tt)
             /\ Forall (fun f => f = None) fs.
Proof.
  unfold reliable, round_trip. intros H.
  destruct (faults db) as [|[text|] fs] eqn:E.
  - exists []. split; auto. now rewrite <- E, set_faults_same.
  - inversion H; discriminate.
  - exists fs. split; auto. now inversion H.
Qed.

(** A round trip raises only what the persistence layer raises. *)
Lemma round_trip_raises db db' e :
  round_trip db = (db', Raise e) ->
  exists text fs, faults db = Some text :: fs
                  /\ db' = set_faults fs db /\ e = SQLAlchemyError text.
Proof.
  unfold round_trip.
  destruct (faults db) as [|[text|] fs]; intros H; inversion H; subst.
  now exists text, fs.
Qed.

Lemma id_is_true k r : models.id_is k r = true <-> models.id r = Some k.
Proof.
  unfold models.id_is. destruct (models.id r) as [i|].
  - rewrite Z.eqb_eq. split; congruence.
  - split; discriminate.
Qed.

Lemma select_by_id srv k rows :
  select srv (limit 1 (filter_ (id_eq k) query)) rows
  = Ok (firstn 1 (filter (models.id_is k) rows)).
Proof.
  unfold select, matching; simpl.
  rewrite (filter_ext _ (models.id_is k)); [reflexivity|].
  intros r. apply andb_true_r.
Qed.

(** get_by_id is one SELECT: the first row of that id, or None. *)
Lemma get_by_id_reliable db k :
  reliable db ->
  exists db',
    crud.get_attendance_by_id k db
    = (db', Ok (find (models.id_is k) (table db)))
    /\ same_store db db' /\ reliable db'.
Proof.
  intros H. destruct (round_trip_reliable db H) as [fs [E F]].
  exists (set_faults fs db). split; [|split].
  - unfold crud.get_attendance_by_id, first, execute, bind, ret.
    rewrite E. cbv beta iota. rewrite select_by_id.
    now rewrite hd_firstn_filter.
  - reflexivity.
  - exact F.
Qed.

(** Whatever the persistence layer does, get_by_id answers with the row
    or None, or lets through what the round trip raised. *)
Lemma get_by_id_cases db k :
  (exists db', crud.get_attendance_by_id k db
               = (db', Ok (find (models.id_is k) (table db)))
               /\ same_store db db')
  \/ (exists text fs,
        faults db = Some text :: fs
        /\ crud.get_attendance_by_id k db
           = (set_faults fs db, Raise (SQLAlchemyError text))).
Proof.
  unfold crud.get_attendance_by_id, first, execute, bind, ret, round_trip.
  destruct (faults db) as [|[text|] fs] eqn:E.
  - left. exists db. rewrite select_by_id, hd_firstn_filter. split; auto.
    unfold same_store. now rewrite set_faults_same.
  - right. now exists text, fs.
  - left. exists (set_faults fs db).
    rewrite select_by_id, hd_firstn_filter. split; auto. reflexivity.
Qed.

End Reliable.

(* ================================================================== *)
(** ** create and delete on a session *)

Section Mutations.
Import orm props.

Lemma has_nul_false v : has_nul v = false <-> nul_free v.
Proof.
  unfold nul_free. induction v as [|c v IH]; simpl.
  - split; auto.
  - rewrite orb_false_iff, IH. split.
    + intros [E N] [Q|I]; [|now apply N].
      subst c. discriminate.
    + intros N. split.
      * destruct (Ascii.eqb_spec c zero) as [Q|Q]; auto.
        exfalso. apply N. now left.
      * intros I. apply N. now right.
Qed.

Lemma storable_sent a : storable a -> refused (pending_object a) = false.
Proof.
  intros [N1 [N2 N3]]. unfold refused, pending_object; simpl.
  apply has_nul_false in N1, N2, N3. now rewrite N1, N2, N3.
Qed.

Lemma stored_row_naive srv pk now a :
  models.utcoffset (schemas.timestamp a) = None ->
  stored_row srv pk now a = row_of pk now a.
Proof.
  unfold stored_row, to_column, models.with_timestamp, row_of; simpl.
  now intros ->.
Qed.

Lemma integrity_no_row db :
  integrity db -> find (models.id_is (sequence db)) (table db) = None.
Proof.
  intros [_ H]. destruct (find _ _) as [r|] eqn:E; auto.
  apply find_some in E. destruct E as [Hin Hid].
  rewrite Forall_forall in H. destruct (H r Hin) as [i [Hi Hlt]].
  apply id_is_true in Hid. rewrite Hi in Hid. inversion Hid. lia.
Qed.

Lemma find_snoc k (rows : list models.AttendanceRecord) row :
  find (models.id_is k) rows = None ->
  models.id row = Some k ->
  find (models.id_is k) (rows ++ [row]) = Some row.
Proof.
  intros Hn Hid. induction rows as [|x rows IH]; simpl in *.
  - apply id_is_true in Hid. now rewrite Hid.
  - destruct (models.id_is k x); [discriminate | auto].
Qed.

Lemma integrity_insert db db' row :
  integrity db ->
  models.id row = Some (sequence db) ->
  table db' = table db ++ [row] ->
  sequence db' = sequence db + 1 ->
  integrity db'.
Proof.
  unfold integrity. intros [Hnd Hall] Hid -> ->. split.
  - rewrite map_app; simpl. rewrite Hid.
    apply NoDup_app; auto.
    + repeat constructor. simpl. tauto.
    + intros x Hx [<-|[]].
      apply in_map_iff in Hx. destruct Hx as [r [Hr Hin]].
      rewrite Forall_forall in Hall. destruct (Hall r Hin) as [i [Hi Hlt]].
      rewrite Hi in Hr. inversion Hr. lia.
  - apply Forall_app. split.
    + eapply Forall_impl; [|exact Hall]. simpl.
      intros r [i [Hi Hlt]]. exists i. split; auto. lia.
    + repeat constructor. exists (sequence db). split; auto. lia.
Qed.

(** A table that stays while the sequence moves on. *)
Lemma integrity_sequence db db' :
  integrity db ->
  table db' = table db ->
  sequence db <= sequence db' ->
  integrity db'.
Proof.
  unfold integrity. intros [Hnd Hall] -> L. split; auto.
  eapply Forall_impl; [|exact Hall]. simpl.
  intros r [i [Hi Hlt]]. exists i. split; auto. lia.
Qed.

(** The flush of one pending object. *)
Lemma flush_insert tbl seq clk ob obj fl srv rb :
  models.id obj = None ->
  models.created_at obj = None ->
  flush (mkSession tbl seq clk (ob ++ [obj]) [List.length ob] [] fl srv rb)
  = mkSession
      (tbl ++ [models.with_timestamp (to_column srv (models.timestamp obj))
                 (models.with_created_at (Some clk)
                    (models.with_id (Some seq) obj))])
      (seq + 1) clk (ob ++ [models.with_id (Some seq) obj]) [] [] fl srv rb.
Proof.
  intros Hid Hc. unfold flush, insert_row, settled; simpl.
  rewrite nth_error_snoc. simpl. rewrite Hid, Hc.
  rewrite list_set_snoc, filter_all by reflexivity. reflexivity.
Qed.

(** A commit that raises leaves the table as it was and nothing
    pending. *)
Lemma commit_raises s s' e :
  commit s = (s', Raise e) ->
  store_error e /\ table s' = table s /\ idle s'
  /\ rollbacks s' = rollbacks s /\ server s' = server s
  /\ clock s' = clock s.
Proof.
  unfold commit, round_trip.
  destruct s as [tbl seq clk ob nw dl fl srv rb].
  cbn [faults set_faults table sequence clock objs new deleted server
       rollbacks].
  destruct fl as [|[text|] fs].
  - destruct (existsb refused _); intros H; inversion H; subst.
    repeat split. right. eexists; reflexivity.
  - intros H; inversion H; subst.
    repeat split. left. eexists; reflexivity.
  - destruct (existsb refused _); intros H; inversion H; subst.
    repeat split. right. eexists; reflexivity.
Qed.


Lemma sequence_insert_rows hs s :
  sequence s <= sequence (fold_left insert_row hs s).
Proof.
  revert s. induction hs as [|h hs IH]; intros s; simpl; [lia|].
  etransitivity; [|apply IH].
  unfold insert_row. destruct (nth_error (objs s) h) as [obj|]; [|lia].
  destruct (models.id obj); simpl; lia.
Qed.

Lemma sequence_flush s : sequence s <= sequence (flush s).
Proof. exact (sequence_insert_rows (new s) s). Qed.

Lemma commit_sequence s s' r :
  commit s = (s', r) -> sequence s <= sequence s'.
Proof.
  unfold commit. destruct (round_trip s) as [s1 [[]|e]] eqn:E.
  - assert (Q : sequence s1 = sequence s).
    { unfold round_trip in E.
      destruct (faults s) as [|[text|] fs]; inversion E; reflexivity. }
    destruct (existsb refused (pending s1)); intros H; inversion H; subst.
    + unfold settled; simpl. lia.
    + rewrite <- Q. apply sequence_flush.
  - apply round_trip_raises in E. destruct E as [text [fs [_ [-> ->]]]].
    intros H; inversion H; subst. unfold settled; cbn [sequence].
    destruct (sent _ text && _).
    + apply (sequence_flush (set_faults fs s)).
    + simpl. lia.
Qed.

(** create, when the persistence layer does not raise: one row more,
    with the next id of the sequence and the time of the database. *)
Lemma create_reliable db a :
  storable a -> integrity db -> idle db -> reliable db ->
  exists db',
    crud.create_attendance_record a db
    = (db', Ok (stored_row (server db) (sequence db) (clock db) a))
    /\ table db'
       = table db ++ [stored_row (server db) (sequence db) (clock db) a]
    /\ sequence db' = sequence db + 1
    /\ clock db' = clock db
    /\ server db' = server db
    /\ rollbacks db' = rollbacks db
    /\ integrity db' /\ idle db' /\ reliable db'.
Proof.
  intros Hst Hint [Hnew Hdel] Hrel.
  pose proof (integrity_no_row db Hint) as Hno.
  pose proof (storable_sent a Hst) as Hsent.
  destruct db as [tbl seq clk ob nw dl fl srv rb].
  unfold reliable in *. simpl in *. subst nw dl.
  set (row := stored_row srv seq clk a).
  assert (Hfind : find (models.id_is seq) (tbl ++ [row]) = Some row)
    by (apply find_snoc; auto).
  unfold crud.create_attendance_record.
  fold (pending_object a).
  set (obj := pending_object a) in *.
  set (s1 := mkSession tbl seq clk (ob ++ [obj]) [List.length ob] [] fl
               srv rb).
  destruct (round_trip_reliable s1 Hrel) as [fs1 [E1 F1]].
  set (s2 := mkSession (tbl ++ [row]) (seq + 1) clk
               (ob ++ [models.with_id (Some seq) obj]) [] [] fs1 srv rb).
  assert (Hflush : flush (set_faults fs1 s1) = s2).
  { unfold s1, set_faults; simpl. now rewrite flush_insert. }
  assert (Hpend : existsb refused (pending (set_faults fs1 s1)) = false).
  { unfold pending, s1; simpl. rewrite nth_error_snoc. simpl.
    now rewrite Hsent. }
  destruct (round_trip_reliable s2 F1) as [fs2 [E2 F2]].
  set (s3 := mkSession (tbl ++ [row]) (seq + 1) clk (ob ++ [row]) [] [] fs2
               srv rb).
  exists s3.
  split; [| repeat (split; [reflexivity|])].
  - apply try_ok.
    rewrite (bind_ok _ _ _ s1 (List.length ob)) by reflexivity.
    rewrite (bind_ok _ _ _ s2 tt).
    2:{ unfold commit. rewrite E1, Hpend. now rewrite Hflush. }
    rewrite (bind_ok _ _ _ s3 tt).
    2:{ unfold refresh. rewrite (bind_ok _ _ _ _ _ E2). simpl.
        rewrite nth_error_snoc. simpl. rewrite Hfind.
        now rewrite list_set_snoc. }
    unfold deref, s3; simpl. now rewrite nth_error_snoc.
  - split; [| split; [split; reflexivity | exact F2]].
    apply (integrity_insert _ s3 row Hint); reflexivity.
Qed.

Lemma insert_rows_frame hs s :
  rollbacks (fold_left insert_row hs s) = rollbacks s
  /\ server (fold_left insert_row hs s) = server s
  /\ clock (fold_left insert_row hs s) = clock s
  /\ faults (fold_left insert_row hs s) = faults s.
Proof.
  revert s. induction hs as [|h hs IH]; intros s; simpl; [auto|].
  destruct (IH (insert_row s h)) as [-> [-> [-> ->]]].
  unfold insert_row. destruct (nth_error (objs s) h); auto.
Qed.

Lemma flush_frame s :
  rollbacks (flush s) = rollbacks s
  /\ server (flush s) = server s
  /\ clock (flush s) = clock s
  /\ faults (flush s) = faults s
  /\ idle (flush s).
Proof.
  unfold flush, settled, idle.
  cbn [rollbacks server clock faults new deleted].
  destruct (insert_rows_frame (new s) s) as [-> [-> [-> ->]]]. auto 6.
Qed.

Lemma round_trip_same s s' r : round_trip s = (s', r) -> same_store s s'.
Proof.
  unfold round_trip, same_store.
  destruct (faults s) as [|[text|] fs] eqn:E; intros H; inversion H; subst;
    try reflexivity.
  symmetry. apply set_faults_same.
Qed.

(** What a commit leaves alone, and nothing is pending after it. *)
Lemma commit_frame s s' r :
  commit s = (s', r) ->
  rollbacks s' = rollbacks s /\ server s' = server s
  /\ clock s' = clock s /\ idle s'.
Proof.
  unfold commit. destruct (round_trip s) as [s1 [[]|e]] eqn:E;
    apply round_trip_same in E; rewrite E.
  - destruct (existsb refused _); intros H; inversion H; subst.
    + unfold idle; simpl. auto.
    + destruct (flush_frame (set_faults (faults s1) s))
        as [-> [-> [-> [_ I]]]]. simpl. auto.
  - destruct e; intros H; inversion H; subst; unfold idle; simpl; auto.
Qed.

(** A refresh touches the loaded objects only. *)
Lemma refresh_frame h s s' r :
  refresh h s = (s', r) ->
  rollbacks s' = rollbacks s /\ server s' = server s
  /\ clock s' = clock s /\ table s' = table s
  /\ sequence s' = sequence s /\ new s' = new s
  /\ deleted s' = deleted s.
Proof.
  unfold refresh, bind.
  destruct (round_trip s) as [s1 [[]|e]] eqn:E;
    apply round_trip_same in E; rewrite E.
  - cbn [objs set_faults].
    destruct (nth_error (objs s) h) as [obj|];
      [destruct (models.id obj) as [pk|];
       [destruct (find (models.id_is pk) _)|]|];
      intros H; inversion H; subst; simpl; auto 8.
  - intros H; inversion H; subst; simpl; auto 8.
Qed.

Lemma rse_bind {A B} (m : M A) (k : A -> M B) :
  raises_store_errors m -> (forall a, raises_store_errors (k a)) ->
  raises_store_errors (bind m k).
Proof.
  unfold raises_store_errors, bind. intros Hm Hk db db' e.
  destruct (m db) as [s [a|e0]] eqn:E; intros H.
  - eapply Hk; eauto.
  - inversion H; subst. eapply Hm; eauto.
Qed.

Lemma rse_round_trip : raises_store_errors round_trip.
Proof.
  intros db db' e H. apply round_trip_raises in H.
  destruct H as [text [fs [_ [_ ->]]]]. left. now exists text.
Qed.

(** A refresh raises nothing but a SQLAlchemyError. *)
Lemma refresh_raises h s s' e :
  refresh h s = (s', Raise e) -> exists text, e = SQLAlchemyError text.
Proof.
  unfold refresh, bind.
  destruct (round_trip s) as [s1 [[]|e1]] eqn:E.
  - destruct (nth_error (objs s1) h) as [obj|];
      [destruct (models.id obj) as [pk|];
       [destruct (find (models.id_is pk) _)|]|];
      intros H; inversion H; subst; eexists; reflexivity.
  - apply round_trip_raises in E. destruct E as [text [fs [_ [_ ->]]]].
    intros H; inversion H; subst. eexists; reflexivity.
Qed.

(** What create does between try and except. *)
Lemma create_body_raises a db s e :
  (h <- add (pending_object a) ;; commit ;; refresh h ;; deref h)%monad db
  = (s, Raise e) ->
  store_error e
  /\ ((exists text, e = SQLAlchemyError text) \/ idle s)
  /\ rollbacks s = rollbacks db.
Proof.
  unfold bind at 1. unfold add at 1.
  set (s1 := mkSession _ _ _ _ _ _ _ _ _).
  unfold bind at 1.
  destruct (commit s1) as [s2 [[]|e2]] eqn:E2.
  - destruct (commit_frame _ _ _ E2) as [R2 _].
    unfold bind at 1.
    destruct (refresh (List.length (objs db)) s2) as [s3 [[]|e3]] eqn:E3.
    + unfold deref. destruct (refresh_frame _ _ _ _ E3) as [R3 _].
      destruct (nth_error (objs s3) _); intros H; inversion H; subst.
      split; [left; eexists; reflexivity|].
      split; [left; eexists; reflexivity | now rewrite R3, R2].
    + intros H; inversion H; subst.
      destruct (refresh_frame _ _ _ _ E3) as [R3 _].
      destruct (refresh_raises _ _ _ _ E3) as [text ->].
      split; [left; eexists; reflexivity|].
      split; [left; eexists; reflexivity | now rewrite R3, R2].
  - intros H; inversion H; subst.
    destruct (commit_raises _ _ _ E2) as [Hs [_ [Hi [Hr _]]]].
    split; [exact Hs | split; [now right | exact Hr]].
Qed.

(** When create raises, rollback() has run: no unit of work is left
    pending. *)
Lemma create_raises_rolled_back db a db' e :
  crud.create_attendance_record a db = (db', Raise e) -> idle db'.
Proof.
  unfold crud.create_attendance_record, try_except.
  match goal with |- context [let (_, _) := ?body db in _] =>
    destruct (body db) as [s [r|e0]] end.
  - discriminate.
  - unfold bind, rollback, raise. intros H. inversion H; subst.
    split; reflexivity.
Qed.

Lemma create_raises db a db' e :
  crud.create_attendance_record a db = (db', Raise e) -> store_error e.
Proof.
  unfold crud.create_attendance_record. fold (pending_object a).
  unfold try_except.
  destruct ((h <- add (pending_object a) ;; commit ;; refresh h ;; deref h)
              %monad db) as [s [r|e0]] eqn:E.
  - discriminate.
  - destruct (create_body_raises _ _ _ _ E) as [Hs _].
    unfold bind, rollback, raise; intros H; inversion H; subst; exact Hs.
Qed.

(** A create that raises has called rollback() once. *)
Lemma create_raises_rollbacks db a db' e :
  crud.create_attendance_record a db = (db', Raise e) ->
  rollbacks db' = S (rollbacks db).
Proof.
  unfold crud.create_attendance_record. fold (pending_object a).
  unfold try_except.
  destruct ((h <- add (pending_object a) ;; commit ;; refresh h ;; deref h)
              %monad db) as [s [r|e0]] eqn:E.
  - discriminate.
  - destruct (create_body_raises _ _ _ _ E) as [_ [_ Hr]].
    unfold bind, rollback, raise; intros H; inversion H; subst.
    simpl. now rewrite Hr.
Qed.


Lemma pending_one tbl seq clk ob obj fl srv rb :
  pending (mkSession tbl seq clk (ob ++ [obj]) [List.length ob] [] fl srv rb)
  = [obj].
Proof.
  unfold pending; simpl. now rewrite nth_error_snoc.
Qed.


Lemma pending_delete_one k r :
  pending_delete [k] r = models.id_is k r.
Proof. unfold pending_delete; simpl. apply orb_false_r. Qed.

Lemma flush_delete tbl seq clk ob k fl srv rb :
  flush (mkSession tbl seq clk ob [] [k] fl srv rb)
  = mkSession (filter (fun r => negb (models.id_is k r)) tbl)
      seq clk ob [] [] fl srv rb.
Proof.
  unfold flush, settled.
  cbn [fold_left new deleted table sequence clock objs faults server
       rollbacks].
  f_equal. apply filter_ext. intros r.
  now rewrite pending_delete_one.
Qed.

(** delete of an id that is in the table, when the persistence layer
    does not raise: the rows of that id go, the others stay. *)
Lemma delete_present db k r :
  idle db -> reliable db ->
  find (models.id_is k) (table db) = Some r ->
  exists db',
    crud.delete_attendance_record k db = (db', Ok true)
    /\ table db' = filter (fun x => negb (models.id_is k x)) (table db)
    /\ sequence db' = sequence db
    /\ idle db' /\ reliable db'.
Proof.
  intros [Hnew Hdel] Hrel Hfind.
  destruct (get_by_id_reliable db k Hrel) as [db1 [E1 [S1 R1]]].
  rewrite Hfind in E1.
  destruct db as [tbl seq clk ob nw dl fl srv rb]. simpl in *. subst nw dl.
  unfold same_store in S1; simpl in S1.
  assert (Hid : models.id r = Some k).
  { apply id_is_true. now apply find_some in Hfind. }
  set (s2 := mkSession tbl seq clk ob [] [k] (faults db1) srv rb).
  assert (R2 : reliable s2) by exact R1.
  destruct (round_trip_reliable s2 R2) as [fs [E2 F2]].
  exists (mkSession (filter (fun x => negb (models.id_is k x)) tbl)
            seq clk ob [] [] fs srv rb).
  split; [| split; [reflexivity | split; [reflexivity | split;
    [split; reflexivity | exact F2]]]].
  unfold crud.delete_attendance_record.
  rewrite (bind_ok _ _ _ _ _ E1). cbv beta iota.
  assert (Ed : delete r db1 = (s2, Ok tt)).
  { unfold delete. rewrite Hid. now rewrite S1. }
  rewrite (bind_ok _ _ _ _ _ Ed).
  assert (Ec : commit s2
               = (mkSession (filter (fun x => negb (models.id_is k x)) tbl)
                    seq clk ob [] [] fs srv rb, Ok tt)).
  { unfold commit. rewrite E2.
    unfold s2, set_faults, pending; simpl. now rewrite flush_delete. }
  now rewrite (bind_ok _ _ _ _ _ Ec).
Qed.

(** Rows taken out of a table with distinct ids have distinct ids. *)
Lemma distinct_ids_kept (keep : models.AttendanceRecord -> bool) rows :
  NoDup (map models.id rows) -> NoDup (map models.id (filter keep rows)).
Proof.
  induction rows as [|row rows IH]; simpl; [auto|].
  rewrite NoDup_cons_iff. intros [Hfresh Hrest].
  destruct (keep row); simpl; [|now apply IH].
  rewrite NoDup_cons_iff. split; [|now apply IH].
  rewrite in_map_iff in *. intros [other [Hid Hin]].
  apply Hfresh. exists other. split; [exact Hid|].
  apply filter_In in Hin. tauto.
Qed.

(** Deleting rows keeps the primary key and the sequence sound. *)
Lemma integrity_filter p db db' :
  integrity db ->
  table db' = filter p (table db) ->
  sequence db' = sequence db ->
  integrity db'.
Proof.
  unfold integrity. intros [Hnd Hall] -> ->. split.
  - now apply distinct_ids_kept.
  - rewrite Forall_forall in *. intros r Hr.
    apply filter_In in Hr. now apply Hall.
Qed.

(** delete of an id that is not in the table: False, and nothing else
    than the round trip of the lookup. *)
Lemma delete_absent db k :
  reliable db ->
  find (models.id_is k) (table db) = None ->
  exists db',
    crud.delete_attendance_record k db = (db', Ok false)
    /\ same_store db db' /\ reliable db'.
Proof.
  intros Hrel Hfind.
  destruct (get_by_id_reliable db k Hrel) as [db1 [E1 [S1 R1]]].
  rewrite Hfind in E1. exists db1. split; [|split]; auto.
  unfold crud.delete_attendance_record.
  now rewrite (bind_ok _ _ _ _ _ E1).
Qed.

(** delete keeps the integrity of the table, whatever it answers. *)
Lemma delete_integrity db k db' b :
  integrity db -> idle db -> reliable db ->
  crud.delete_attendance_record k db = (db', Ok b) ->
  integrity db'.
Proof.
  intros Hint Hidle Hrel E.
  destruct (find (models.id_is k) (table db)) as [r|] eqn:Hfind.
  - destruct (delete_present db k r Hidle Hrel Hfind)
      as [db1 [E1 [Ht [Hs _]]]].
    rewrite E1 in E. inversion E; subst.
    eapply integrity_filter; eauto.
  - destruct (delete_absent db k Hrel Hfind) as [db1 [E1 [S1 _]]].
    rewrite E1 in E. inversion E; subst.
    rewrite S1. now destruct db.
Qed.


(** The data access layer raises nothing but what the persistence layer
    and the driver raise. *)
Lemma delete_raises db k db' e :
  crud.delete_attendance_record k db = (db', Raise e) ->
  store_error e /\ table db' = table db /\ rollbacks db' = rollbacks db
  /\ sequence db <= sequence db'.
Proof.
  unfold crud.delete_attendance_record.
  destruct (get_by_id_cases db k) as [[db1 [E1 S1]] | [text [fs [Hf E1]]]].
  - rewrite (bind_ok _ _ _ _ _ E1).
    destruct (find (models.id_is k) (table db)) as [r|] eqn:Hfind.
    + assert (Hid : models.id r = Some k).
      { apply id_is_true. now apply find_some in Hfind. }
      unfold bind at 1. unfold delete. rewrite Hid.
      unfold bind.
      match goal with |- context [commit ?s] =>
        destruct (commit s) as [s2 [[]|e2]] eqn:E2 end.
      * discriminate.
      * intros H; inversion H; subst.
        pose proof (commit_sequence _ _ _ E2) as L.
        destruct (commit_raises _ _ _ E2) as [Hs [Ht [_ [Hr _]]]].
        rewrite S1 in Ht, Hr, L. simpl in Ht, Hr, L. auto.
    + discriminate.
  - rewrite (bind_raise _ _ _ _ _ E1). intros H; inversion H; subst.
    split; [left; now exists text | destruct db; simpl; repeat split; lia].
Qed.

End Mutations.

(* ================================================================== *)
(** ** list and count *)

Section Listing.
Import orm props.

Lemma matching_eligible student_id rows :
  matching
    (if crud.truthy student_id
     then filter_ (student_id_eq student_id) query
     else query) rows
  = eligible student_id rows.
Proof.
  unfold eligible, matching, rows_of_student.
  destruct student_id as [x|]; simpl.
  - destruct (x =? EmptyString)%string; simpl.
    + apply filter_all. reflexivity.
    + apply filter_ext. intros r. apply andb_true_r.
  - apply filter_all. reflexivity.
Qed.

(** No text of the query of list and count is refused by the driver
    when the filter holds no NUL. *)
Lemma bound_text_sent student_id :
  filter_nul_free student_id ->
  existsb has_nul
    (flat_map bound_text
       (where_ (if crud.truthy student_id
                then filter_ (student_id_eq student_id) query
                else query)))
  = false.
Proof.
  destruct student_id as [x|]; simpl; [|reflexivity].
  intros N. apply has_nul_false in N.
  destruct (x =? EmptyString)%string; simpl; [reflexivity|].
  now rewrite N.
Qed.

Lemma row_count_within clause n :
  0 <= n <= bigint_max -> row_count clause (Some n) = Ok (Some (Z.to_nat n)).
Proof.
  unfold row_count. intros [L U].
  destruct (Z.ltb_spec n 0); [lia|].
  destruct (Z.ltb_spec bigint_max n); [lia | reflexivity].
Qed.

Lemma select_page srv skip limit student_id rows :
  filter_nul_free student_id ->
  0 <= skip <= bigint_max -> 0 <= limit <= bigint_max ->
  select srv
    (orm.limit limit
       (offset skip
          (order_by_desc_timestamp
             (if crud.truthy student_id
              then filter_ (student_id_eq student_id) query
              else query)))) rows
  = Ok (firstn (Z.to_nat limit)
          (skipn (Z.to_nat skip)
             (sort_desc
                (ties srv (Some skip) (Some limit)
                   (eligible student_id rows))
                (eligible student_id rows)))).
Proof.
  intros Hn Hs Hl. rewrite <- matching_eligible.
  pose proof (bound_text_sent student_id Hn) as Hb.
  unfold select.
  replace (where_ (orm.limit limit (offset skip (order_by_desc_timestamp
             (if crud.truthy student_id
              then filter_ (student_id_eq student_id) query
              else query)))))
    with (where_ (if crud.truthy student_id
                  then filter_ (student_id_eq student_id) query
                  else query)) by reflexivity.
  rewrite Hb.
  cbn [offset_ limit_ order_by_ orm.limit offset order_by_desc_timestamp].
  rewrite (row_count_within _ skip Hs), (row_count_within _ limit Hl).
  reflexivity.
Qed.

Lemma select_count srv student_id rows :
  filter_nul_free student_id ->
  select srv
    (if crud.truthy student_id
     then filter_ (student_id_eq student_id) query
     else query) rows
  = Ok (eligible student_id rows).
Proof.
  intros Hn. rewrite <- matching_eligible.
  pose proof (bound_text_sent student_id Hn) as Hb.
  unfold select. rewrite Hb.
  destruct (crud.truthy student_id); reflexivity.
Qed.

(** The page of list, when the persistence layer does not raise. *)
Lemma records_reliable db skip limit student_id :
  reliable db -> filter_nul_free student_id ->
  0 <= skip <= bigint_max -> 0 <= limit <= bigint_max ->
  exists db',
    crud.get_attendance_records skip limit student_id db
    = (db', Ok (firstn (Z.to_nat limit)
                  (skipn (Z.to_nat skip)
                     (sort_desc
                        (ties (server db) (Some skip) (Some limit)
                           (eligible student_id (table db)))
                        (eligible student_id (table db))))))
    /\ same_store db db' /\ reliable db'.
Proof.
  intros Hrel Hn Hs Hl. destruct (round_trip_reliable db Hrel) as [fs [E F]].
  exists (set_faults fs db). split; [|split]; [|reflexivity|exact F].
  unfold crud.get_attendance_records, all, execute.
  rewrite (bind_ok _ _ _ _ _ E). cbv beta.
  now rewrite select_page.
Qed.

(** The count, when the persistence layer does not raise. *)
Lemma count_reliable db student_id :
  reliable db -> filter_nul_free student_id ->
  exists db',
    crud.get_total_count student_id db
    = (db', Ok (Z.of_nat (List.length (eligible student_id (table db)))))
    /\ same_store db db' /\ reliable db'.
Proof.
  intros Hrel Hn. destruct (round_trip_reliable db Hrel) as [fs [E F]].
  exists (set_faults fs db). split; [|split]; [|reflexivity|exact F].
  unfold crud.get_total_count, count, execute.
  unfold bind at 1. unfold bind at 1. rewrite E.
  cbv beta iota. now rewrite select_count.
Qed.

Lemma same_store_table db db' : same_store db db' -> table db' = table db.
Proof. unfold same_store. intros ->. reflexivity. Qed.

Lemma same_store_server db db' : same_store db db' -> server db' = server db.
Proof. unfold same_store. intros ->. reflexivity. Qed.

Lemma same_store_trans a b c :
  same_store a b -> same_store b c -> same_store a c.
Proof.
  unfold same_store, set_faults. destruct a, b, c; simpl.
  intros H1 H2. inversion H1; inversion H2; subst. reflexivity.
Qed.

(** The handler of GET /attendance/, when the persistence layer does not
    raise: the page of the matching rows in an order most recent first,
    and their number. *)
Lemma list_reliable db skip limit student_id :
  reliable db -> filter_nul_free student_id ->
  0 <= skip <= bigint_max -> 0 <= limit <= bigint_max ->
  exists db' ordered,
    attendance_v1.get_attendance_list skip limit student_id db
    = (db', Ok (schemas.mkAttendanceV1ListResponse
                  (Z.of_nat (List.length (eligible student_id (table db))))
                  (firstn (Z.to_nat limit) (skipn (Z.to_nat skip) ordered))))
    /\ ordered
       = sort_desc (ties (server db) (Some skip) (Some limit)
                      (eligible student_id (table db)))
           (eligible student_id (table db))
    /\ Permutation ordered (eligible student_id (table db))
    /\ newest_first ordered
    /\ same_store db db' /\ reliable db'.
Proof.
  intros Hrel Hn Hs Hl.
  destruct (records_reliable db skip limit student_id Hrel Hn Hs Hl)
    as [db1 [E1 [S1 R1]]].
  destruct (count_reliable db1 student_id R1 Hn) as [db2 [E2 [S2 R2]]].
  rewrite (same_store_table _ _ S1) in E2.
  exists db2, (sort_desc (ties (server db) (Some skip) (Some limit)
                            (eligible student_id (table db)))
                 (eligible student_id (table db))).
  split; [| split; [reflexivity | split; [apply sort_desc_perm | split;
    [apply sort_desc_sorted | split;
      [eapply same_store_trans; eauto | exact R2]]]]].
  unfold attendance_v1.get_attendance_list.
  apply try_ok.
  rewrite (bind_ok _ _ _ _ _ E1). now rewrite (bind_ok _ _ _ _ _ E2).
Qed.

End Listing.

(* ================================================================== *)
(** ** Validation *)

Section Validation.
Import props.
Variable parse_datetime : string -> option models.datetime.

(** A body that validates is copied field by field, the timestamp being
    the parsed one. *)
Lemma validate_accepted p a :
  schemas.validate parse_datetime p = inl a ->
  schemas.student_name a = schemas.raw_student_name p
  /\ schemas.student_id a = schemas.raw_student_id p
  /\ parse_datetime (schemas.raw_timestamp p) = Some (schemas.timestamp a)
  /\ schemas.bluetooth_signal_strength a
     = schemas.raw_bluetooth_signal_strength p
  /\ schemas.status a = schemas.raw_status p.
Proof.
  unfold schemas.validate.
  destruct (_ ++ _) as [|err errs];
    destruct (parse_datetime (schemas.raw_timestamp p)) as [t|];
    intros H; inversion H; subst; simpl. repeat split.
Qed.

Lemma validate_rejects p (errors : list schemas.ErrorDetails) :
  errors <> [] ->
  match errors, parse_datetime (schemas.raw_timestamp p) with
  | [], Some t =>
      inl (schemas.mkAttendanceV1Create (schemas.raw_student_name p)
             (schemas.raw_student_id p) t
             (schemas.raw_bluetooth_signal_strength p) (schemas.raw_status p))
  | _, _ => inr errors
  end = inr errors.
Proof.
  destruct errors; [congruence|]. reflexivity.
Qed.

Lemma check_length_empty loc hi :
  schemas.check_length loc 1 hi EmptyString <> [].
Proof. discriminate. Qed.

Lemma check_length_long loc lo hi v :
  (hi < String.length v)%nat -> schemas.check_length loc lo hi v <> [].
Proof.
  unfold schemas.check_length. intros H.
  destruct (String.length v <? lo)%nat; [discriminate|].
  destruct (Nat.ltb_spec hi (String.length v)); [discriminate | lia].
Qed.

Lemma check_range_outside loc lo hi n :
  n < lo \/ hi < n -> schemas.check_range loc lo hi (Some n) <> [].
Proof.
  unfold schemas.check_range. intros H.
  destruct (Z.ltb_spec n lo); [discriminate|].
  destruct (Z.ltb_spec hi n); [discriminate | lia].
Qed.

Lemma check_pattern_mismatch loc v :
  v <> "present" -> v <> "absent" -> v <> "late" ->
  schemas.check_pattern loc v <> [].
Proof.
  unfold schemas.check_pattern, schemas.status_pattern. intros H1 H2 H3.
  apply String.eqb_neq in H1, H2, H3. rewrite H1, H2, H3. discriminate.
Qed.

Lemma app_not_nil_l {A} (l l' : list A) : l <> [] -> l ++ l' <> [].
Proof. destruct l; [congruence | discriminate]. Qed.

Lemma app_not_nil_r {A} (l l' : list A) : l' <> [] -> l ++ l' <> [].
Proof. destruct l; [auto | discriminate]. Qed.

(** Every violation of a field constraint is found by the validation. *)
Lemma validate_violation p :
  violates parse_datetime p ->
  exists errors,
    errors <> [] /\ schemas.validate parse_datetime p = inr errors.
Proof.
  intros V. unfold schemas.validate.
  match goal with |- context [match ?es with _ => _ end] =>
    exists es; assert (Hne : es <> []) end.
  { destruct V as [V|[V|[V|[V|[V|[[n [Hn V]]|[V1 [V2 V3]]]]]]]].
    - apply app_not_nil_l. rewrite V. apply check_length_empty.
    - apply app_not_nil_l. now apply check_length_long.
    - apply app_not_nil_r, app_not_nil_l. rewrite V.
      apply check_length_empty.
    - apply app_not_nil_r, app_not_nil_l. now apply check_length_long.
    - apply app_not_nil_r, app_not_nil_r, app_not_nil_l.
      unfold schemas.check_datetime. rewrite V. discriminate.
    - apply app_not_nil_r, app_not_nil_r, app_not_nil_r, app_not_nil_l.
      rewrite Hn. now apply check_range_outside.
    - apply app_not_nil_r, app_not_nil_r, app_not_nil_r, app_not_nil_r.
      now apply check_pattern_mismatch. }
  split; auto. now apply validate_rejects.
Qed.

Lemma check_length_within loc hi v :
  (1 <= String.length v <= hi)%nat -> schemas.check_length loc 1 hi v = [].
Proof.
  unfold schemas.check_length. intros [H1 H2].
  destruct (Nat.ltb_spec (String.length v) 1); [lia|].
  destruct (Nat.ltb_spec hi (String.length v)); [lia | reflexivity].
Qed.

Lemma check_range_within loc lo hi v :
  (forall n, v = Some n -> lo <= n <= hi) ->
  schemas.check_range loc lo hi v = [].
Proof.
  unfold schemas.check_range. intros H. destruct v as [n|]; auto.
  specialize (H n eq_refl).
  destruct (Z.ltb_spec n lo); [lia|].
  destruct (Z.ltb_spec hi n); [lia | reflexivity].
Qed.

(** A body that meets every field constraint validates. *)
Lemma validate_valid p :
  valid parse_datetime p ->
  exists a, schemas.validate parse_datetime p = inl a.
Proof.
  intros [N [I [T [B S]]]]. unfold schemas.validate, schemas.check_datetime.
  rewrite (check_length_within _ _ _ N), (check_length_within _ _ _ I),
    (check_range_within _ _ _ _ B).
  destruct (parse_datetime (schemas.raw_timestamp p)) as [t|]; [|congruence].
  assert (Hs : schemas.check_pattern "status" (schemas.raw_status p) = []).
  { unfold schemas.check_pattern, schemas.status_pattern.
    destruct S as [-> | [-> | ->]]; reflexivity. }
  rewrite Hs. simpl. eexists; reflexivity.
Qed.

End Validation.

(* ================================================================== *)
(** ** Properties of the specification *)

Section CreateThenGet.
Import orm props.

(** A status that validates holds no NUL. *)
Lemma validate_status parse_datetime p a :
  schemas.validate parse_datetime p = inl a ->
  nul_free (schemas.status a).
Proof.
  intros Hv.
  destruct (validate_accepted parse_datetime p a Hv) as [_ [_ [_ [_ S]]]].
  revert Hv. unfold schemas.validate.
  destruct (schemas.check_pattern "status" (schemas.raw_status p))
    as [|err errs] eqn:E.
  - intros _. unfold schemas.check_pattern, schemas.status_pattern in E.
    rewrite S. apply has_nul_false.
    destruct (schemas.raw_status p =? "present")%string eqn:E1;
      [apply String.eqb_eq in E1; now rewrite E1|].
    destruct (schemas.raw_status p =? "absent")%string eqn:E2;
      [apply String.eqb_eq in E2; now rewrite E2|].
    destruct (schemas.raw_status p =? "late")%string eqn:E3;
      [apply String.eqb_eq in E3; now rewrite E3|].
    discriminate.
  - rewrite !app_assoc.
    destruct (_ ++ err :: errs) as [|x xs] eqn:Q.
    + now apply app_eq_nil in Q.
    + discriminate.
Qed.




End CreateThenGet.

Section ListAndCount.
Import orm props.









End ListAndCount.

Section Rejection.
Import orm props.

(** C5. For every create input that breaks a field constraint
    (student_name empty or over 100 characters, student_id empty or over
    50 characters, timestamp that does not parse,
    bluetooth_signal_strength present and outside [-100, 0], status other
    than present, absent and late), the POST is answered by a validation
    error (422) before the data access layer is reached: the session is
    untouched, no row is written. *)
Theorem invalid_create_rejected :
  forall parse_datetime (p : schemas.Payload) (db : Session),
    violates parse_datetime p ->
    exists errors,
      errors <> []
      /\ schemas.validate parse_datetime p = inr errors
      /\ main.app parse_datetime (post_attendance p) db
         = (db, main.mkResponse 422 (main.Errors errors)).
Proof.
  intros pd p db V.
  destruct (validate_violation pd p V) as [errors [Hne Hv]].
  exists errors. split; [exact Hne|]. split; [exact Hv|].
  unfold main.app, post_attendance. cbn [main.method main.path].
  replace (main.resolve main.routes main.POST "/api/v1/attendance/")
    with (main.FULL main.create_attendance EmptyString) by reflexivity.
  unfold main.call. cbn [main.body]. now rewrite Hv.
Qed.

Lemma invalid_create_rejected_witness :
  exists errors,
    errors <> []
    /\ schemas.validate samples.parse_example
         (schemas.mkPayload "John Doe" "STU123" "2025-11-08T10:30:00"
            (Some 5) "present" [])
       = inr errors
    /\ main.app samples.parse_example
         (post_attendance
            (schemas.mkPayload "John Doe" "STU123" "2025-11-08T10:30:00"
               (Some 5) "present" []))
         samples.john_db
       = (samples.john_db, main.mkResponse 422 (main.Errors errors)).
Proof.
  apply (invalid_create_rejected samples.parse_example
           (schemas.mkPayload "John Doe" "STU123" "2025-11-08T10:30:00"
              (Some 5) "present" [])
           samples.john_db).
  unfold violates; simpl.
  right; right; right; right; right; left.
  exists 5. split; [reflexivity | lia].
Defined.

End Rejection.

Section Deletion.
Import orm props.


Lemma find_absent k (rows : list models.AttendanceRecord) :
  (forall x, In x rows -> models.id x <> Some k) ->
  find (models.id_is k) rows = None.
Proof.
  intros H. destruct (find _ _) as [r|] eqn:E; auto.
  apply find_some in E. destruct E as [Hin Hid].
  apply id_is_true in Hid. now apply H in Hin.
Qed.

Lemma find_present k (rows : list models.AttendanceRecord) r :
  In r rows -> models.id r = Some k ->
  exists r', find (models.id_is k) rows = Some r'.
Proof.
  intros Hin Hid. destruct (find _ _) as [r'|] eqn:E; [now exists r'|].
  apply (find_none _ _ E) in Hin.
  apply id_is_true in Hid. congruence.
Qed.



End Deletion.

Section NotFound.
Import orm props.

(** The decimal text of an id holds a digit. *)
Lemma str_int_has_digit k :
  existsb main.is_digit (list_ascii_of_string (attendance_v1.str_int k))
  = true.
Proof.
  assert (U : forall u, u <> Decimal.Nil ->
                existsb main.is_digit
                  (list_ascii_of_string (NilZero.string_of_uint u)) = true).
  { intros u Hu. destruct u; [congruence | reflexivity ..]. }
  unfold attendance_v1.str_int.
  destruct k as [|q|q]; [reflexivity | |].
  - apply U, DecimalPos.Unsigned.to_uint_nonnil.
  - simpl. apply U, DecimalPos.Unsigned.to_uint_nonnil.
Qed.

(** The decimal text of an id reads back as that id. *)
Lemma path_int_str_int k :
  main.path_int (attendance_v1.str_int k) = Some k.
Proof.
  unfold main.path_int. rewrite str_int_has_digit.
  unfold attendance_v1.str_int.
  rewrite NilZero.isi.
  - simpl. now rewrite DecimalZ.of_to.
  - destruct k; simpl; try discriminate.
    intros H. inversion H as [Hn].
    now apply DecimalPos.Unsigned.to_uint_nonnil in Hn.
  - destruct k; simpl; try discriminate.
    intros H. inversion H as [Hn].
    now apply DecimalPos.Unsigned.to_uint_nonnil in Hn.
Qed.

(** C8. get_by_id on an id that is not in the store returns None, the
    not-found signal, and raises nothing (the persistence layer not
    raising); the handler of GET /attendance/{record_id} turns this
    signal into a 404 whose detail names the missing id. *)
Theorem get_by_id_not_found :
  forall parse_datetime (req : main.Request) (db : Session) (k : Z),
    reliable db ->
    (forall x, In x (table db) -> models.id x <> Some k) ->
    exists db',
      crud.get_attendance_by_id k db = (db', Ok None)
      /\ same_store db db'
      /\ attendance_v1.get_attendance_by_id k db
         = (db', Raise (HTTPException 404
                          ("Attendance record with ID "
                           ++ attendance_v1.str_int k ++ " not found")%string))
      /\ main.call parse_datetime main.get_attendance_by_id
           (attendance_v1.str_int k) req db
         = (db', main.mkResponse 404
                   (main.Detail ("Attendance record with ID "
                                 ++ attendance_v1.str_int k
                                 ++ " not found")%string)).
Proof.
  intros pd req db k Hrel Habs.
  destruct (get_by_id_reliable db k Hrel) as [db' [E [S _]]].
  rewrite (find_absent k _ Habs) in E.
  assert (Eh : attendance_v1.get_attendance_by_id k db
               = (db', Raise (HTTPException 404
                                (attendance_v1.not_found_detail k)))).
  { unfold attendance_v1.get_attendance_by_id.
    rewrite (try_raise _ _ db db'
               (HTTPException 404 (attendance_v1.not_found_detail k)));
      [reflexivity|].
    now rewrite (bind_ok _ _ _ _ _ E). }
  exists db'. split; [exact E|]. split; [exact S|]. split; [exact Eh|].
  unfold main.call. rewrite path_int_str_int.
  unfold main.respond. now rewrite Eh.
Qed.

Lemma get_by_id_not_found_witness :
  exists db',
    crud.get_attendance_by_id 7 samples.john_db = (db', Ok None)
    /\ same_store samples.john_db db'
    /\ attendance_v1.get_attendance_by_id 7 samples.john_db
       = (db', Raise (HTTPException 404
                        ("Attendance record with ID "
                         ++ attendance_v1.str_int 7 ++ " not found")%string))
    /\ main.call samples.parse_example main.get_attendance_by_id
         (attendance_v1.str_int 7)
         (main.mkRequest main.GET "/api/v1/attendance/7" None None None
            samples.john)
         samples.john_db
       = (db', main.mkResponse 404
                 (main.Detail ("Attendance record with ID "
                               ++ attendance_v1.str_int 7
                               ++ " not found")%string)).
Proof.
  apply (get_by_id_not_found samples.parse_example
           (main.mkRequest main.GET "/api/v1/attendance/7" None None None
              samples.john)
           samples.john_db 7).
  - constructor.
  - simpl. intros x [<-|[]]. discriminate.
Defined.

(** The same request through the application. *)
Example get_missing_record_through_app :
  main.app samples.parse_example
    (main.mkRequest main.GET "/api/v1/attendance/7" None None None
       samples.john)
    samples.john_db
  = (samples.john_db,
     main.mkResponse 404
       (main.Detail "Attendance record with ID 7 not found")).
Proof. reflexivity. Qed.

End NotFound.

Section Duplicates.
Import orm props.

Lemma create_attendance_ok a db db' r :
  crud.create_attendance_record a db = (db', Ok r) ->
  attendance_v1.create_attendance a db
  = (db', Ok (schemas.mkMessageResponse
                "Attendance record stored successfully")).
Proof.
  intros E. unfold attendance_v1.create_attendance. apply try_ok.
  now rewrite (bind_ok _ _ _ _ _ E).
Qed.




End Duplicates.

Section StoreFailure.
Import orm props.

(** When create raises, nothing is left pending, the exception is one of
    the persistence layer or of the driver, and the POST handler answers
    500 with a fixed text followed by the text of the exception. *)
Lemma create_failure_rolled_back a db db' e :
  crud.create_attendance_record a db = (db', Raise e) ->
  idle db' /\ store_error e
  /\ attendance_v1.create_attendance a db
     = (db', Raise (HTTPException 500
                      ("Failed to store attendance record: "
                       ++ attendance_v1.str e)%string)).
Proof.
  intros E. split; [|split].
  - eapply create_raises_rolled_back; eauto.
  - eapply create_raises; eauto.
  - unfold attendance_v1.create_attendance.
    rewrite (try_raise _ _ db db' e); [reflexivity|].
    now rewrite (bind_raise _ _ _ _ _ E).
Qed.




End StoreFailure.

Section VersionTwo.
Import orm props.

(** C3, amended. The v2 handlers of POST and GET /attendance/, whenever
    they are called and with any payload, raise a 501 with a fixed
    message directing callers to v1, and leave the session as it is; the
    application includes the v1 router only, so a request to
    /api/v2/attendance/, by any method and with any payload, fits no
    route: it is answered 404, the store unchanged. *)
Theorem v2_not_implemented_not_mounted :
  forall parse_datetime (m : main.Method) (skip limit : option Z)
         (student_id : option string) (p : schemas.Payload) (db : Session),
    let req := main.mkRequest m "/api/v2/attendance/" skip limit student_id p in
    let detail :=
      "API version 2 is not yet implemented. Please use /api/v1/attendance/" in
    attendance_v2.create_attendance_v2 (schemas.validate_v2 p) db
    = (db, Raise (HTTPException 501 detail))
    /\ attendance_v2.get_attendance_list_v2 db
       = (db, Raise (HTTPException 501 detail))
    /\ main.call parse_datetime main.create_attendance_v2 EmptyString req db
       = (db, main.mkResponse 501 (main.Detail detail))
    /\ main.call parse_datetime main.get_attendance_list_v2 EmptyString req db
       = (db, main.mkResponse 501 (main.Detail detail))
    /\ main.resolve main.routes m "/api/v2/attendance/" = main.NONE
    /\ main.app parse_datetime req db
       = (db, main.mkResponse 404 (main.Detail "Not Found")).
Proof.
  intros pd m skip limit student_id p db. cbv zeta.
  repeat split; try reflexivity; destruct m; reflexivity.
Qed.

(** C3 as stated fails: a POST and a GET to /api/v2/attendance/ are
    answered 404, not 501. *)
Lemma v2_request_not_found :
  main.app samples.parse_example
    (main.mkRequest main.POST "/api/v2/attendance/" None None None
       samples.john)
    samples.john_db
  = (samples.john_db, main.mkResponse 404 (main.Detail "Not Found"))
  /\ main.app samples.parse_example
       (main.mkRequest main.GET "/api/v2/attendance/" None None None
          samples.john)
       samples.john_db
     = (samples.john_db, main.mkResponse 404 (main.Detail "Not Found"))
  /\ main.status_code
       (snd (main.app samples.parse_example
               (main.mkRequest main.POST "/api/v2/attendance/" None None None
                  samples.john)
               samples.john_db))
     <> 501.
Proof.
  split; [reflexivity|]. split; [reflexivity|]. discriminate.
Qed.

End VersionTwo.

(* ================================================================== *)
(** ** Further properties of the code *)

Section ReadOnly.
Import orm props.

Lemma execute_store q db db' r :
  execute q db = (db', r) -> same_store db db'.
Proof.
  unfold execute, bind.
  destruct (round_trip db) as [s [[]|e]] eqn:E; intros H; inversion H; subst;
    exact (round_trip_same _ _ _ E).
Qed.

Lemma records_store skip limit student_id db db' r :
  crud.get_attendance_records skip limit student_id db = (db', r) ->
  same_store db db'.
Proof. apply execute_store. Qed.

Lemma count_store student_id db db' r :
  crud.get_total_count student_id db = (db', r) -> same_store db db'.
Proof.
  unfold crud.get_total_count, count, bind.
  match goal with |- context [execute ?q db] =>
    destruct (execute q db) as [s [rows|e]] eqn:E end;
    intros H; inversion H; subst; exact (execute_store _ _ _ _ E).
Qed.

Lemma get_by_id_store k db db' r :
  crud.get_attendance_by_id k db = (db', r) -> same_store db db'.
Proof.
  unfold crud.get_attendance_by_id, first, bind.
  match goal with |- context [execute ?q db] =>
    destruct (execute q db) as [s [rows|e]] eqn:E end;
    intros H; inversion H; subst; exact (execute_store _ _ _ _ E).
Qed.

(** The handlers end in the session their body or their except clause
    ends in: [raise] and [ret] change nothing. *)
Lemma list_handler_store skip limit student_id db :
  same_store db
    (fst (attendance_v1.get_attendance_list skip limit student_id db)).
Proof.
  unfold attendance_v1.get_attendance_list, try_except, bind.
  destruct (crud.get_attendance_records skip limit student_id db)
    as [s1 [records|e]] eqn:E1.
  - destruct (crud.get_total_count student_id s1) as [s2 [total|e]] eqn:E2;
      simpl; eapply same_store_trans;
      eauto using records_store, count_store.
  - simpl. eauto using records_store.
Qed.

Lemma get_handler_store k db :
  same_store db (fst (attendance_v1.get_attendance_by_id k db)).
Proof.
  unfold attendance_v1.get_attendance_by_id, try_except, bind.
  destruct (crud.get_attendance_by_id k db) as [s1 [[r|]|e]] eqn:E1;
    simpl; try destruct e; simpl; eauto using get_by_id_store.
Qed.

(** X1. The read operations never write: whatever the persistence layer
    does (answer or raise), list, count and get_by_id, and the handlers of
    GET /attendance/ and GET /attendance/{record_id}, leave the table, the
    sequence, the identity map and the pending unit of work as they were;
    only round trips are used up. *)
Theorem reads_never_write :
  forall (db : Session) (skip limit k : Z) (student_id : option string),
    same_store db
      (fst (crud.get_attendance_records skip limit student_id db))
    /\ same_store db (fst (crud.get_total_count student_id db))
    /\ same_store db (fst (crud.get_attendance_by_id k db))
    /\ same_store db
         (fst (attendance_v1.get_attendance_list skip limit student_id db))
    /\ same_store db (fst (attendance_v1.get_attendance_by_id k db)).
Proof.
  intros db skip limit k student_id.
  split; [|split; [|split; [|split]]].
  - destruct (crud.get_attendance_records skip limit student_id db)
      as [s r] eqn:E. eapply records_store; eauto.
  - destruct (crud.get_total_count student_id db) as [s r] eqn:E.
    eapply count_store; eauto.
  - destruct (crud.get_attendance_by_id k db) as [s r] eqn:E.
    eapply get_by_id_store; eauto.
  - apply list_handler_store.
  - apply get_handler_store.
Qed.

End ReadOnly.

Section HandlerErrors.
Import orm props.

Lemma row_count_raises clause n e :
  row_count clause n = Raise e -> store_error e.
Proof.
  unfold row_count. destruct n as [n|]; [|discriminate].
  destruct (n <? 0); [|destruct (bigint_max <? n)];
    intros H; inversion H; subst; left; eexists; reflexivity.
Qed.

Lemma rse_execute q : raises_store_errors (execute q).
Proof.
  apply rse_bind; [apply rse_round_trip|]. intros _ db db' e.
  unfold select.
  destruct (existsb has_nul _).
  - intros H; inversion H; subst. right. eexists; reflexivity.
  - destruct (row_count "OFFSET" (offset_ q)) as [skipped|e1] eqn:E1.
    + destruct (row_count "LIMIT" (limit_ q)) as [kept|e2] eqn:E2.
      * discriminate.
      * intros H; inversion H; subst. eapply row_count_raises; eauto.
    + intros H; inversion H; subst. eapply row_count_raises; eauto.
Qed.

Lemma rse_ret {A} (a : A) : raises_store_errors (ret a).
Proof. intros db db' e H. discriminate. Qed.

Lemma rse_records skip limit student_id :
  raises_store_errors (crud.get_attendance_records skip limit student_id).
Proof. apply rse_execute. Qed.

Lemma rse_count student_id :
  raises_store_errors (crud.get_total_count student_id).
Proof.
  apply rse_bind; [apply rse_execute|]. intros rows. apply rse_ret.
Qed.

Lemma rse_get_by_id k : raises_store_errors (crud.get_attendance_by_id k).
Proof.
  apply rse_bind; [apply rse_execute|]. intros rows. apply rse_ret.
Qed.

Lemma rse_delete_record k :
  raises_store_errors (crud.delete_attendance_record k).
Proof.
  intros db db' e H. now apply delete_raises in H.
Qed.

Lemma rse_create_record a :
  raises_store_errors (crud.create_attendance_record a).
Proof.
  intros db db' e H. now apply create_raises in H.
Qed.

(** A handler whose except clause turns every exception into a 500. *)
Lemma try_500 {A} (body : M A) (prefix : string) :
  raises_http [500]
    (try_except body
       (fun e =>
          raise (HTTPException attendance_v1.HTTP_500_INTERNAL_SERVER_ERROR
                   (prefix ++ attendance_v1.str e)%string))).
Proof.
  intros db db' e. unfold try_except.
  destruct (body db) as [s [a|e0]]; intros H; inversion H; subst.
  eexists _, _. split; [reflexivity | now left].
Qed.

(** A handler that raises a 404 itself, lets HTTPExceptions through and
    turns the exceptions of the persistence layer into a 500. *)
Lemma try_404_500 {A B} (m : M A) (k : A -> M B) (prefix : string) :
  raises_store_errors m ->
  (forall a, raises_http [404] (k a)) ->
  raises_http [404; 500]
    (try_except (bind m k)
       (fun e =>
          match e with
          | HTTPException _ _ => raise e
          | _ =>
              raise (HTTPException attendance_v1.HTTP_500_INTERNAL_SERVER_ERROR
                       (prefix ++ attendance_v1.str e)%string)
          end)).
Proof.
  intros Hm Hk db db' e. unfold try_except, bind.
  destruct (m db) as [s [a|e0]] eqn:Em.
  - destruct (k a s) as [s' [b|e1]] eqn:Ek; [discriminate|].
    destruct (Hk a s s' e1 Ek) as [code [detail [-> Hin]]].
    intros H; inversion H; subst.
    eexists _, _. split; [reflexivity|]. simpl in *. tauto.
  - destruct (Hm db s e0 Em) as [[text ->]|[text ->]];
      intros H; inversion H; subst;
      (eexists _, _; split; [reflexivity|]; simpl; tauto).
Qed.

(** X2. No exception of the persistence layer leaves a v1 handler: what
    the handlers of POST and GET /attendance/ raise is an HTTPException
    500, and what the handlers of GET and DELETE /attendance/{record_id}
    raise is an HTTPException 404 or 500. *)
Theorem handlers_raise_http_only :
  forall (a : schemas.AttendanceV1Create) (skip limit k : Z)
         (student_id : option string),
    raises_http [500] (attendance_v1.create_attendance a)
    /\ raises_http [500]
         (attendance_v1.get_attendance_list skip limit student_id)
    /\ raises_http [404; 500] (attendance_v1.get_attendance_by_id k)
    /\ raises_http [404; 500] (attendance_v1.delete_attendance k).
Proof.
  intros a skip limit k student_id.
  split; [apply try_500|]. split; [apply try_500|]. split.
  - apply try_404_500; [apply rse_get_by_id|].
    intros [r|] db db' e H; inversion H; subst.
    eexists _, _. split; [reflexivity | now left].
  - apply try_404_500; [apply rse_delete_record|].
    intros [|] db db' e H; inversion H; subst.
    eexists _, _. split; [reflexivity | now left].
Qed.

(** The theorem at a session whose round trips raise. *)
Lemma handlers_raise_http_only_witness :
  exists code detail,
    snd (attendance_v1.delete_attendance 1 samples.john_db_failing)
    = Raise (HTTPException code detail)
    /\ In code [404; 500].
Proof.
  destruct (handlers_raise_http_only samples.john_valid 0 100 1 None)
    as [_ [_ [_ H]]].
  destruct (H samples.john_db_failing
              (fst (attendance_v1.delete_attendance 1 samples.john_db_failing))
              (HTTPException 500
                 ("Failed to delete attendance record: "
                  ++ "server closed the connection unexpectedly")%string)
              eq_refl)
    as [code [detail [E Hin]]].
  exists code, detail. split; [|exact Hin].
  rewrite <- E. reflexivity.
Defined.

End HandlerErrors.

Section ValidationExact.
Import props.
Variable parse_datetime : string -> option models.datetime.

Lemma check_length_reports loc0 hi v loc :
  (exists kind, In (loc, kind) (schemas.check_length loc0 1 hi v))
  <-> loc = loc0 /\ ~ (1 <= String.length v <= hi)%nat.
Proof.
  unfold schemas.check_length.
  destruct (Nat.ltb_spec (String.length v) 1) as [L|L];
    [|destruct (Nat.ltb_spec hi (String.length v)) as [H|H]]; simpl.
  - split.
    + intros [kind [E|[]]]. inversion E. split; [reflexivity | lia].
    + intros [-> _]. eexists. now left.
  - split.
    + intros [kind [E|[]]]. inversion E. split; [reflexivity | lia].
    + intros [-> _]. eexists. now left.
  - split; [intros [kind []] | intros [_ N]; exfalso; apply N; lia].
Qed.

Lemma check_range_reports loc0 v loc :
  (exists kind, In (loc, kind) (schemas.check_range loc0 (-100) 0 v))
  <-> loc = loc0 /\ exists n, v = Some n /\ (n < -100 \/ 0 < n).
Proof.
  unfold schemas.check_range. destruct v as [n|].
  - destruct (Z.ltb_spec n (-100)) as [L|L];
      [|destruct (Z.ltb_spec 0 n) as [H|H]]; simpl.
    + split.
      * intros [kind [E|[]]]. inversion E. split; [reflexivity|].
        exists n. split; [reflexivity | lia].
      * intros [-> _]. eexists. now left.
    + split.
      * intros [kind [E|[]]]. inversion E. split; [reflexivity|].
        exists n. split; [reflexivity | lia].
      * intros [-> _]. eexists. now left.
    + split; [intros [kind []] | intros [_ [m [E N]]]]. inversion E. lia.
  - simpl. split; [intros [kind []] | intros [_ [m [E _]]]; discriminate].
Qed.

Lemma status_pattern_spec v :
  schemas.status_pattern v = true
  <-> v = "present" \/ v = "absent" \/ v = "late".
Proof.
  unfold schemas.status_pattern.
  rewrite !orb_true_iff, !String.eqb_eq. tauto.
Qed.

Lemma check_pattern_reports loc0 v loc :
  (exists kind, In (loc, kind) (schemas.check_pattern loc0 v))
  <-> loc = loc0 /\ v <> "present" /\ v <> "absent" /\ v <> "late".
Proof.
  unfold schemas.check_pattern.
  destruct (schemas.status_pattern v) eqn:E; simpl.
  - apply status_pattern_spec in E.
    split; [intros [kind []] | intros [_ [N1 [N2 N3]]]; tauto].
  - assert (N : ~ (v = "present" \/ v = "absent" \/ v = "late")).
    { intros H. apply status_pattern_spec in H. congruence. }
    split.
    + intros [kind [H|[]]]. inversion H. tauto.
    + intros [-> _]. eexists. now left.
Qed.

Lemma check_datetime_reports loc0 v loc :
  (exists kind,
     In (loc, kind) (schemas.check_datetime parse_datetime loc0 v))
  <-> loc = loc0 /\ parse_datetime v = None.
Proof.
  unfold schemas.check_datetime. destruct (parse_datetime v) as [t|]; simpl.
  - split; [intros [kind []] | intros [_ H]; discriminate].
  - split.
    + intros [kind [H|[]]]. inversion H. tauto.
    + intros [-> _]. eexists. now left.
Qed.

Lemma exists_in_app {A B} (a : A) (l l' : list (A * B)) :
  (exists b, In (a, b) (l ++ l'))
  <-> (exists b, In (a, b) l) \/ (exists b, In (a, b) l').
Proof.
  split.
  - intros [b H]. apply in_app_or in H. destruct H; [left|right]; eauto.
  - intros [[b H]|[b H]]; exists b; apply in_or_app; tauto.
Qed.

Lemma collected_reports p loc :
  (exists kind, In (loc, kind) (collected parse_datetime p))
  <-> field_violated parse_datetime p loc.
Proof.
  unfold collected, field_violated.
  rewrite !exists_in_app, !check_length_reports, check_datetime_reports,
    check_range_reports, check_pattern_reports.
  tauto.
Qed.

Lemma validate_rejected p errors :
  schemas.validate parse_datetime p = inr errors ->
  errors = collected parse_datetime p.
Proof.
  unfold schemas.validate. fold (collected parse_datetime p).
  destruct (collected parse_datetime p) as [|err errs];
    destruct (parse_datetime (schemas.raw_timestamp p));
    intros H; inversion H; reflexivity.
Qed.

Lemma validate_accepted_clean p a :
  schemas.validate parse_datetime p = inl a -> collected parse_datetime p = [].
Proof.
  unfold schemas.validate. fold (collected parse_datetime p).
  destruct (collected parse_datetime p) as [|err errs];
    destruct (parse_datetime (schemas.raw_timestamp p));
    intros H; inversion H; reflexivity.
Qed.

Lemma valid_no_field_violated p :
  valid parse_datetime p <-> forall loc, ~ field_violated parse_datetime p loc.
Proof.
  unfold valid, field_violated. split.
  - intros [N [I [T [B S]]]] loc
      [[_ H]|[[_ H]|[[_ H]|[[_ [n [E H]]]|[_ [H1 [H2 H3]]]]]]]; try tauto.
    specialize (B n E). lia.
  - intros H. split; [|split; [|split; [|split]]].
    + destruct (Nat.leb_spec 1 (String.length (schemas.raw_student_name p)));
        destruct (Nat.leb_spec (String.length (schemas.raw_student_name p))
                    100);
        try lia; exfalso; apply (H "student_name"); left; split; auto; lia.
    + destruct (Nat.leb_spec 1 (String.length (schemas.raw_student_id p)));
        destruct (Nat.leb_spec (String.length (schemas.raw_student_id p)) 50);
        try lia; exfalso; apply (H "student_id"); right; left;
        split; auto; lia.
    + intros E. apply (H "timestamp"). right; right; left. now split.
    + intros n E.
      destruct (Z.leb_spec (-100) n); destruct (Z.leb_spec n 0); try lia;
        exfalso; apply (H "bluetooth_signal_strength");
        right; right; right; left; split; auto; exists n; split; auto; lia.
    + destruct (schemas.status_pattern (schemas.raw_status p)) eqn:E.
      * now apply status_pattern_spec.
      * exfalso. apply (H "status"). right; right; right; right.
        split; auto.
        repeat split; intros N;
          assert (T : schemas.status_pattern (schemas.raw_status p) = true)
            by (apply status_pattern_spec; tauto);
          congruence.
Qed.

(** X3. The validation of a create body accepts exactly the bodies that
    meet every field constraint: student_name of 1 to 100 characters,
    student_id of 1 to 50 characters, a timestamp that parses,
    bluetooth_signal_strength absent or in [-100, 0], status one of
    present, absent, late. *)
Theorem validate_accepts_exactly_valid :
  forall p,
    (exists a, schemas.validate parse_datetime p = inl a)
    <-> valid parse_datetime p.
Proof.
  intros p. split.
  - intros [a H]. apply valid_no_field_violated. intros loc V.
    apply collected_reports in V. destruct V as [kind V].
    now rewrite (validate_accepted_clean p a H) in V.
  - apply validate_valid.
Qed.

(** X4. When the validation rejects a body, the error list names exactly
    the fields that break their constraint: a field has an entry if and
    only if its constraint is violated, every violation being reported
    and not only the first. *)
Theorem validate_reports_every_field :
  forall p errors,
    schemas.validate parse_datetime p = inr errors ->
    forall loc,
      (exists kind, In (loc, kind) errors)
      <-> field_violated parse_datetime p loc.
Proof.
  intros p errors H loc. rewrite (validate_rejected p errors H).
  apply collected_reports.
Qed.

End ValidationExact.

Lemma validate_reports_every_field_witness :
  (exists kind,
     In ("bluetooth_signal_strength", kind)
        [("student_name", "string_too_short");
         ("bluetooth_signal_strength", "less_than_equal")])
  <-> props.field_violated samples.parse_example
        (schemas.mkPayload EmptyString "STU123" "2025-11-08T10:30:00"
           (Some 5) "late" [])
        "bluetooth_signal_strength".
Proof.
  apply (validate_reports_every_field samples.parse_example
           (schemas.mkPayload EmptyString "STU123" "2025-11-08T10:30:00"
              (Some 5) "late" [])
           [("student_name", "string_too_short");
            ("bluetooth_signal_strength", "less_than_equal")]).
  reflexivity.
Defined.


Section CreateUnderFaults.
Import orm props.

Lemma same_store_fields db db' :
  same_store db db' ->
  table db' = table db /\ sequence db' = sequence db /\ clock db' = clock db
  /\ objs db' = objs db /\ new db' = new db /\ deleted db' = deleted db.
Proof. unfold same_store. intros ->. repeat split. Qed.

(** A commit that succeeds has flushed the unit of work. *)
Lemma commit_ok s s' :
  commit s = (s', Ok tt) ->
  exists fs, s' = flush (set_faults fs s)
             /\ existsb refused (pending s) = false.
Proof.
  unfold commit. destruct (round_trip s) as [s1 [[]|e]] eqn:E.
  - apply round_trip_same in E. rewrite E.
    change (pending (set_faults (faults s1) s)) with (pending s).
    destruct (existsb refused (pending s)); intros H; inversion H.
    now exists (faults s1).
  - destruct e; discriminate.
Qed.

(** A commit whose round trip succeeds and whose texts the driver takes
    flushes the unit of work. *)
Lemma commit_succeeds s fs :
  faults s = None :: fs ->
  existsb refused (pending s) = false ->
  commit s = (flush (set_faults fs s), Ok tt).
Proof.
  intros E P. unfold commit, round_trip. rewrite E.
  change (pending (set_faults fs s)) with (pending s). now rewrite P.
Qed.

(** The flush of the single object that create has added. *)
Lemma flush_created tbl seq clk ob fl srv rb a :
  flush (mkSession tbl seq clk (ob ++ [pending_object a])
           [List.length ob] [] fl srv rb)
  = mkSession (tbl ++ [stored_row srv seq clk a]) (seq + 1) clk
      (ob ++ [models.with_id (Some seq) (pending_object a)])
      [] [] fl srv rb.
Proof. now rewrite flush_insert. Qed.

(** Whatever the persistence layer does, create on an idle session ends
    with the table as it was or with the one new row, and with no unit
    of work pending. *)
Lemma create_cases a db db' r :
  idle db ->
  crud.create_attendance_record a db = (db', r) ->
  idle db'
  /\ ((table db' = table db /\ sequence db <= sequence db')
      \/ (table db'
          = table db ++ [stored_row (server db) (sequence db) (clock db) a]
          /\ sequence db' = sequence db + 1)).
Proof.
  intros [Hnew Hdel].
  destruct db as [tbl seq clk ob nw dl fl srv rb]. simpl in *. subst nw dl.
  unfold crud.create_attendance_record. fold (pending_object a).
  unfold try_except.
  unfold bind at 1. unfold add at 1.
  cbn [objs table sequence clock new deleted faults server rollbacks app].
  set (s1 := mkSession tbl seq clk (ob ++ [pending_object a])
               [List.length ob] [] fl srv rb).
  unfold bind at 1.
  destruct (commit s1) as [s2 [[]|e2]] eqn:E2.
  - destruct (commit_ok _ _ E2) as [fs [Q _]].
    unfold s1, set_faults in Q.
    cbn [objs table sequence clock new deleted faults server rollbacks] in Q.
    rewrite flush_created in Q. subst s2.
    unfold bind at 1.
    match goal with |- context [refresh ?h ?s] =>
      destruct (refresh h s) as [s3 [[]|e3]] eqn:E3;
        destruct (refresh_frame _ _ _ _ E3)
          as [_ [_ [_ [Ht [Hs [Hn Hd]]]]]] end;
      cbn [table sequence new deleted] in Ht, Hs, Hn, Hd.
    + unfold deref. destruct (nth_error (objs s3) _).
      * intros H; inversion H; subst.
        split; [now split|]. right. now split.
      * unfold bind, rollback, raise. intros H; inversion H; subst.
        cbn [table sequence new deleted]. split; [now split|].
        right. now split.
    + destruct (refresh_raises _ _ _ _ E3) as [text ->].
      unfold bind, rollback, raise. intros H; inversion H; subst.
      cbn [table sequence new deleted]. split; [now split|].
      right. now split.
  - pose proof (commit_sequence _ _ _ E2) as L.
    destruct (commit_raises _ _ _ E2) as [_ [Ht [Hi _]]].
    cbn [table sequence s1] in Ht, L.
    destruct e2; unfold bind, rollback, raise; intros H; inversion H; subst;
      cbn [table sequence new deleted];
      (split; [auto; now split | left; now split]).
Qed.



(** X6. create is not atomic when the refresh raises: the commit has
    been done, so the new row is in the table and the sequence has moved,
    while the caller gets the exception and the POST handler answers 500
    (body without NUL in its texts; the row carries the timestamp of
    the body when that has no UTC offset, and what the column keeps of
    it otherwise). *)
Theorem create_refresh_failure_keeps_row :
  forall a db text fs,
    idle db -> storable a ->
    faults db = None :: Some text :: fs ->
    exists db',
      crud.create_attendance_record a db = (db', Raise (SQLAlchemyError text))
      /\ table db'
         = table db ++ [stored_row (server db) (sequence db) (clock db) a]
      /\ (models.utcoffset (schemas.timestamp a) = None ->
          table db' = table db ++ [row_of (sequence db) (clock db) a])
      /\ sequence db' = sequence db + 1
      /\ idle db'
      /\ attendance_v1.create_attendance a db
         = (db', Raise (HTTPException 500
                          ("Failed to store attendance record: "
                           ++ text)%string)).
Proof.
  intros a db text fs [Hnew Hdel] Hst Hf.
  pose proof (storable_sent a Hst) as Hsent.
  destruct db as [tbl seq clk ob nw dl fl srv rb]. simpl in *.
  subst nw dl fl.
  set (s1 := mkSession tbl seq clk (ob ++ [pending_object a])
               [List.length ob] [] (None :: Some text :: fs) srv rb).
  set (s2 := mkSession (tbl ++ [stored_row srv seq clk a]) (seq + 1) clk
               (ob ++ [models.with_id (Some seq) (pending_object a)])
               [] [] (Some text :: fs) srv rb).
  set (s3 := mkSession (tbl ++ [stored_row srv seq clk a]) (seq + 1) clk
               (ob ++ [models.with_id (Some seq) (pending_object a)])
               [] [] fs srv rb).
  assert (E : crud.create_attendance_record a
                (mkSession tbl seq clk ob [] [] (None :: Some text :: fs)
                   srv rb)
              = (mkSession (tbl ++ [stored_row srv seq clk a]) (seq + 1) clk
                   (ob ++ [models.with_id (Some seq) (pending_object a)])
                   [] [] fs srv (S rb),
                 Raise (SQLAlchemyError text))).
  { unfold crud.create_attendance_record. fold (pending_object a).
    rewrite (try_raise _ _ _ s3 (SQLAlchemyError text)); [reflexivity|].
    rewrite (bind_ok _ _ _ s1 (List.length ob)) by reflexivity.
    rewrite (bind_ok _ _ _ s2 tt).
    - apply bind_raise. reflexivity.
    - rewrite (commit_succeeds s1 (Some text :: fs)).
      + unfold s1, set_faults.
        cbn [faults table sequence clock objs new deleted server rollbacks].
        now rewrite flush_created.
      + reflexivity.
      + unfold s1. rewrite pending_one. cbn [existsb].
        now rewrite Hsent. }
  eexists. split; [exact E|]. split; [reflexivity|].
  split; [intros Hoff; cbn [table]; now rewrite stored_row_naive|].
  split; [reflexivity|]. split; [split; reflexivity|].
  now destruct (create_failure_rolled_back a _ _ _ E) as [_ [_ ->]].
Qed.

Lemma create_refresh_failure_keeps_row_witness :
  exists db',
    crud.create_attendance_record samples.john_valid samples.john_db_failing
    = (db', Raise (SQLAlchemyError
                     "server closed the connection unexpectedly"))
    /\ table db'
       = table samples.john_db_failing
         ++ [stored_row (server samples.john_db_failing)
               (sequence samples.john_db_failing)
               (clock samples.john_db_failing) samples.john_valid]
    /\ (models.utcoffset (schemas.timestamp samples.john_valid) = None ->
        table db'
        = table samples.john_db_failing
          ++ [row_of (sequence samples.john_db_failing)
                (clock samples.john_db_failing) samples.john_valid])
    /\ sequence db' = sequence samples.john_db_failing + 1
    /\ idle db'
    /\ attendance_v1.create_attendance samples.john_valid
         samples.john_db_failing
       = (db', Raise (HTTPException 500
                        ("Failed to store attendance record: "
                         ++ "server closed the connection "
                         ++ "unexpectedly")%string)).
Proof.
  apply (create_refresh_failure_keeps_row samples.john_valid
           samples.john_db_failing
           "server closed the connection unexpectedly" []).
  - split; reflexivity.
  - unfold storable, nul_free; simpl; intuition discriminate.
  - reflexivity.
Defined.

End CreateUnderFaults.

Section TableSteps.
Import orm props.

(** Whatever the persistence layer does, delete on an idle session ends
    with the table as it was or without the rows of that id, and with
    nothing pending; the sequence does not move. *)
Lemma delete_cases k db db' r :
  idle db ->
  crud.delete_attendance_record k db = (db', r) ->
  (table db' = table db
   \/ table db' = filter (fun x => negb (models.id_is k x)) (table db))
  /\ sequence db' = sequence db
  /\ idle db'.
Proof.
  intros [Hnew Hdel]. unfold crud.delete_attendance_record.
  destruct (get_by_id_cases db k) as [[db1 [E1 S1]] | [text [fs [Hf E1]]]].
  - rewrite (bind_ok _ _ _ _ _ E1).
    destruct db as [tbl seq clk ob nw dl fl srv rb]. simpl in *.
    subst nw dl.
    unfold same_store, set_faults in S1. cbn in S1.
    destruct (find (models.id_is k) tbl) as [row|] eqn:Hfind.
    + assert (Hid : models.id row = Some k).
      { apply id_is_true. now apply find_some in Hfind. }
      unfold bind at 1. unfold delete at 1. rewrite Hid. rewrite S1.
      cbn [objs table sequence clock new deleted faults server rollbacks
           app].
      unfold bind at 1. unfold commit, round_trip.
      cbn [faults set_faults table sequence clock objs new deleted server
           rollbacks].
      unfold pending. cbn [flat_map new existsb negb andb].
      destruct (faults db1) as [|[text|] fs].
      * rewrite flush_delete. intros H; inversion H; subst. simpl.
        split; [now right | split; [reflexivity | now split]].
      * rewrite andb_true_r.
        intros H; inversion H; subst. cbn [table sequence settled].
        split; [now left|]. split; [|now split].
        destruct (sent srv text); reflexivity.
      * unfold set_faults.
        cbn [faults table sequence clock objs new deleted server
             rollbacks].
        rewrite flush_delete. intros H; inversion H; subst. simpl.
        split; [now right | split; [reflexivity | now split]].
    + intros H; inversion H; subst db'. rewrite S1. simpl.
      split; [now left | split; [reflexivity | now split]].
  - rewrite (bind_raise _ _ _ _ _ E1). intros H; inversion H; subst.
    destruct db; simpl in *. subst.
    split; [now left | split; [reflexivity | now split]].
Qed.

Lemma respond_fst {A} status (wrap : A -> main.Content) (h : M A) db :
  fst (main.respond status wrap h db) = fst (h db).
Proof.
  unfold main.respond. destruct (h db) as [s [a|[text|text|code detail]]];
    reflexivity.
Qed.

Lemma create_handler_fst a db :
  fst (attendance_v1.create_attendance a db)
  = fst (crud.create_attendance_record a db).
Proof.
  unfold attendance_v1.create_attendance, try_except, bind.
  destruct (crud.create_attendance_record a db) as [s [row|e]]; reflexivity.
Qed.

Lemma delete_handler_fst k db :
  fst (attendance_v1.delete_attendance k db)
  = fst (crud.delete_attendance_record k db).
Proof.
  unfold attendance_v1.delete_attendance, try_except, bind.
  destruct (crud.delete_attendance_record k db)
    as [s [[|]|[text|text|c d]]]; reflexivity.
Qed.

Lemma table_step_same parse_datetime req db db' :
  same_store db db' -> table_step parse_datetime req db db'.
Proof.
  intros S. left. destruct (same_store_fields _ _ S) as [Ht [Hs _]].
  split; [exact Ht | lia].
Qed.

Lemma call_table_step parse_datetime e param req db :
  idle db ->
  table_step parse_datetime req db
    (fst (main.call parse_datetime e param req db)).
Proof.
  intros Hidle. destruct e; unfold main.call;
    try (apply table_step_same; unfold same_store; simpl;
         now rewrite set_faults_same).
  - destruct (schemas.validate parse_datetime (main.body req)) as [a|errors]
      eqn:Hv.
    + rewrite respond_fst, create_handler_fst.
      destruct (crud.create_attendance_record a db) as [db' r] eqn:E.
      destruct (create_cases a db db' r Hidle E) as [_ [[Ht Hs]|[Ht Hs]]];
        simpl.
      * left. now split.
      * right; left. now exists a.
    + apply table_step_same; unfold same_store; simpl.
      now rewrite set_faults_same.
  - destruct (main.check_query req) as [[skip_ limit_]|errors].
    + rewrite respond_fst. apply table_step_same, list_handler_store.
    + apply table_step_same; unfold same_store; simpl.
      now rewrite set_faults_same.
  - destruct (main.path_int param) as [record_id|].
    + rewrite respond_fst. apply table_step_same, get_handler_store.
    + apply table_step_same; unfold same_store; simpl.
      now rewrite set_faults_same.
  - destruct (main.path_int param) as [record_id|].
    + rewrite respond_fst, delete_handler_fst.
      destruct (crud.delete_attendance_record record_id db) as [db' r] eqn:E.
      destruct (delete_cases record_id db db' r Hidle E)
        as [[Ht|Ht] [Hs _]]; simpl.
      * left. split; [exact Ht | lia].
      * right; right. now exists record_id.
    + apply table_step_same; unfold same_store; simpl.
      now rewrite set_faults_same.
Qed.

(** One request changes the table in one of the three ways of
    [table_step]. *)
Lemma app_steps parse_datetime (req : main.Request) (db : Session) :
  idle db ->
  table_step parse_datetime req db (fst (main.app parse_datetime req db)).
Proof.
  intros Hidle. unfold main.app.
  destruct (main.resolve main.routes (main.method req) (main.path req))
    as [e param| |].
  - now apply call_table_step.
  - apply table_step_same; unfold same_store; simpl.
    now rewrite set_faults_same.
  - destruct (main.resolve main.routes (main.method req)
                (main.toggle_slash (main.path req)));
      try destruct (main.path req =? "/")%string;
      apply table_step_same; unfold same_store; simpl;
      now rewrite set_faults_same.
Qed.

(** X7. Whatever the request (method, path, parameters, body) and
    whatever the persistence layer does, the application changes the table
    in one of three ways only: not at all, the id sequence staying or
    moving on; by appending one row made of the validated body with the
    next id of the sequence; or by removing the rows of one id.  The id
    sequence never goes back. *)
Theorem app_table_step :
  forall parse_datetime (req : main.Request) (db : Session),
    idle db ->
    table_step parse_datetime req db (fst (main.app parse_datetime req db))
    /\ sequence db <= sequence (fst (main.app parse_datetime req db)).
Proof.
  intros pd req db Hidle.
  pose proof (app_steps pd req db Hidle) as H. split; [exact H|].
  destruct H as [[_ L] | [[a [_ [_ L]]] | [k [_ L]]]]; lia.
Qed.

Lemma app_table_step_witness :
  table_step samples.parse_example (post_attendance samples.john)
    samples.john_db_failing
    (fst (main.app samples.parse_example (post_attendance samples.john)
            samples.john_db_failing))
  /\ sequence samples.john_db_failing
     <= sequence
          (fst (main.app samples.parse_example (post_attendance samples.john)
                  samples.john_db_failing)).
Proof.
  apply (app_table_step samples.parse_example (post_attendance samples.john)
           samples.john_db_failing).
  split; reflexivity.
Defined.

End TableSteps.

Section Consumption.
Import orm props.

Lemma later_refl db : later db db.
Proof. now exists []. Qed.

Lemma later_trans a b c : later a b -> later b c -> later a c.
Proof.
  intros [u1 H1] [u2 H2]. exists (u1 ++ u2).
  now rewrite H1, H2, app_assoc.
Qed.

Lemma later_reliable db db' : later db db' -> reliable db -> reliable db'.
Proof.
  unfold reliable. intros [used ->] H. apply Forall_app in H. tauto.
Qed.

Lemma consumes_ret {A} (a : A) : consumes (ret a).
Proof. intros db db' r H. inversion H. apply later_refl. Qed.

Lemma consumes_raise {A} e : consumes (@raise A e).
Proof. intros db db' r H. inversion H. apply later_refl. Qed.

Lemma consumes_bind {A B} (m : M A) (k : A -> M B) :
  consumes m -> (forall a, consumes (k a)) -> consumes (bind m k).
Proof.
  intros Hm Hk db db' r. unfold bind.
  destruct (m db) as [s [a|e]] eqn:E; intros H.
  - eapply later_trans; [eapply Hm; eauto | eapply Hk; eauto].
  - inversion H; subst. eapply Hm; eauto.
Qed.

Lemma consumes_try {A} (body : M A) handler :
  consumes body -> (forall e, consumes (handler e)) ->
  consumes (try_except body handler).
Proof.
  intros Hb Hh db db' r. unfold try_except.
  destruct (body db) as [s [a|e]] eqn:E; intros H.
  - inversion H; subst. eapply Hb; eauto.
  - eapply later_trans; [eapply Hb; eauto | eapply Hh; eauto].
Qed.

Lemma consumes_round_trip : consumes round_trip.
Proof.
  intros db db' r. unfold round_trip, later.
  destruct (faults db) as [|[text|] fs] eqn:E; intros H; inversion H; subst;
    simpl.
  - exists []. now rewrite E.
  - now exists [Some text].
  - now exists [None].
Qed.

(** A step that leaves the coming round trips alone. *)
Lemma consumes_quiet {A} (f : Session -> Session * result A) :
  (forall db, faults (fst (f db)) = faults db) -> consumes f.
Proof.
  intros Hf db db' r E. exists []. simpl.
  specialize (Hf db). now rewrite E in Hf.
Qed.

Lemma flush_faults s : faults (flush s) = faults s.
Proof. apply flush_frame. Qed.

Lemma consumes_commit : consumes commit.
Proof.
  intros db db' r. unfold commit.
  destruct (round_trip db) as [s1 [[]|e]] eqn:E;
    pose proof (consumes_round_trip _ _ _ E) as L.
  - destruct (existsb refused (pending s1)); intros H; inversion H; subst.
    + exact L.
    + destruct L as [used L]. exists used. now rewrite flush_faults.
  - destruct e; intros H; inversion H; subst; exact L.
Qed.

Lemma consumes_refresh h : consumes (refresh h).
Proof.
  apply consumes_bind; [apply consumes_round_trip|]. intros _.
  apply consumes_quiet. intros db.
  destruct (nth_error (objs db) h) as [obj|]; [|reflexivity].
  destruct (models.id obj) as [pk|]; [|reflexivity].
  destruct (find (models.id_is pk) (table db)); reflexivity.
Qed.

Lemma consumes_execute q : consumes (execute q).
Proof.
  apply consumes_bind; [apply consumes_round_trip|]. intros _.
  now apply consumes_quiet.
Qed.

Lemma consumes_create a : consumes (crud.create_attendance_record a).
Proof.
  apply consumes_try.
  - apply consumes_bind; [now apply consumes_quiet|]. intros h.
    apply consumes_bind; [apply consumes_commit|]. intros _.
    apply consumes_bind; [apply consumes_refresh|]. intros _.
    apply consumes_quiet. intros db. unfold deref.
    destruct (nth_error (objs db) h); reflexivity.
  - intros e. apply consumes_bind; [now apply consumes_quiet|].
    intros _. apply consumes_raise.
Qed.

Lemma consumes_get_by_id k : consumes (crud.get_attendance_by_id k).
Proof.
  apply consumes_bind; [apply consumes_execute|]. intros rows.
  apply consumes_ret.
Qed.

Lemma consumes_delete k : consumes (crud.delete_attendance_record k).
Proof.
  apply consumes_bind; [apply consumes_get_by_id|]. intros [row|].
  - apply consumes_bind.
    + apply consumes_quiet. intros db. unfold delete.
      destruct (models.id row); reflexivity.
    + intros _. apply consumes_bind; [apply consumes_commit|].
      intros _. apply consumes_ret.
  - apply consumes_ret.
Qed.

Lemma consumes_respond {A} status (wrap : A -> main.Content) (h : M A) db :
  consumes h -> later db (fst (main.respond status wrap h db)).
Proof.
  intros Hh. rewrite respond_fst.
  destruct (h db) as [s r] eqn:E. eapply Hh; eauto.
Qed.

Lemma consumes_v1_create a : consumes (attendance_v1.create_attendance a).
Proof.
  apply consumes_try; [|intros e; apply consumes_raise].
  apply consumes_bind; [apply consumes_create|]. intros row.
  apply consumes_ret.
Qed.

Lemma consumes_v1_list skip limit student_id :
  consumes (attendance_v1.get_attendance_list skip limit student_id).
Proof.
  apply consumes_try; [|intros e; apply consumes_raise].
  apply consumes_bind; [apply consumes_execute|]. intros records.
  apply consumes_bind; [|intros total; apply consumes_ret].
  apply consumes_bind; [apply consumes_execute|]. intros rows.
  apply consumes_ret.
Qed.

Lemma consumes_v1_get k : consumes (attendance_v1.get_attendance_by_id k).
Proof.
  apply consumes_try.
  - apply consumes_bind; [apply consumes_get_by_id|].
    intros [row|]; [apply consumes_ret | apply consumes_raise].
  - intros [text|text|c d]; apply consumes_raise.
Qed.

Lemma consumes_v1_delete k : consumes (attendance_v1.delete_attendance k).
Proof.
  apply consumes_try.
  - apply consumes_bind; [apply consumes_delete|].
    intros [|]; [apply consumes_ret | apply consumes_raise].
  - intros [text|text|c d]; apply consumes_raise.
Qed.

(** The application uses up round trips and nothing else of them. *)
Lemma app_later parse_datetime req db :
  later db (fst (main.app parse_datetime req db)).
Proof.
  unfold main.app.
  destruct (main.resolve main.routes (main.method req) (main.path req))
    as [e param| |].
  - unfold main.call. destruct e; try apply later_refl.
    + destruct (schemas.validate parse_datetime (main.body req));
        [apply consumes_respond, consumes_v1_create | apply later_refl].
    + destruct (main.check_query req) as [[skip_ limit_]|];
        [apply consumes_respond, consumes_v1_list | apply later_refl].
    + destruct (main.path_int param);
        [apply consumes_respond, consumes_v1_get | apply later_refl].
    + destruct (main.path_int param);
        [apply consumes_respond, consumes_v1_delete | apply later_refl].
  - apply later_refl.
  - destruct (main.resolve main.routes (main.method req)
                (main.toggle_slash (main.path req)));
      try destruct (main.path req =? "/")%string; apply later_refl.
Qed.

End Consumption.

Section Invariants.
Import orm props.
Variable parse_datetime : string -> option models.datetime.

Lemma validate_inl_valid p a :
  schemas.validate parse_datetime p = inl a -> valid parse_datetime p.
Proof.
  intros H. apply valid_no_field_violated. intros loc V.
  apply collected_reports in V. destruct V as [kind V].
  now rewrite (validate_accepted_clean parse_datetime p a H) in V.
Qed.

Lemma row_of_valid p a srv pk now :
  schemas.validate parse_datetime p = inl a ->
  row_valid (stored_row srv pk now a).
Proof.
  intros H. destruct (validate_inl_valid p a H) as [N [I [_ [B S]]]].
  destruct (validate_accepted parse_datetime p a H) as [En [Ei [_ [Eb Es]]]].
  unfold row_valid, stored_row, row_of; simpl. rewrite En, Ei, Eb, Es. tauto.
Qed.

Lemma integrity_step req db db' :
  table_step parse_datetime req db db' -> integrity db -> integrity db'.
Proof.
  intros [[Ht Hs] | [[a [_ [Ht Hs]]] | [k [Ht Hs]]]] Hint.
  - eapply integrity_sequence; eauto.
  - eapply integrity_insert; eauto. reflexivity.
  - eapply integrity_filter; eauto.
Qed.

Lemma rows_valid_step req db db' :
  table_step parse_datetime req db db' ->
  Forall row_valid (table db) -> Forall row_valid (table db').
Proof.
  intros [[-> _] | [[a [Hv [-> _]]] | [k [-> _]]]] H.
  - exact H.
  - apply Forall_app. split; [exact H|].
    constructor; [|constructor]. eapply row_of_valid; eauto.
  - rewrite Forall_forall in *. intros r Hr.
    apply filter_In in Hr. now apply H.
Qed.

Lemma app_sound (req : main.Request) (db : Session) :
  idle db ->
  (integrity db -> integrity (fst (main.app parse_datetime req db)))
  /\ (Forall row_valid (table db) ->
      Forall row_valid (table (fst (main.app parse_datetime req db)))).
Proof.
  intros Hidle.
  pose proof (app_steps parse_datetime req db Hidle) as Hstep.
  split; intros H.
  - eapply integrity_step; eauto.
  - eapply rows_valid_step; eauto.
Qed.

(** X8. One request keeps the table sound, whatever the persistence
    layer does: the ids stay pairwise distinct and below the sequence, and
    if every row met the field constraints of the schema (lengths of
    student_name and student_id, range of bluetooth_signal_strength,
    status among present, absent, late), every row still does. *)
Theorem app_keeps_table_sound :
  forall (req : main.Request) (db : Session),
    idle db ->
    (integrity db -> integrity (fst (main.app parse_datetime req db)))
    /\ (Forall row_valid (table db) ->
        Forall row_valid (table (fst (main.app parse_datetime req db)))).
Proof.
  intros req db Hidle. now apply app_sound.
Qed.

(** A request leaves no unit of work pending. *)
Lemma app_keeps_idle req db :
  idle db -> idle (fst (main.app parse_datetime req db)).
Proof.
  intros Hidle. unfold main.app.
  destruct (main.resolve main.routes (main.method req) (main.path req))
    as [e param| |]; [| exact Hidle |].
  - unfold main.call. destruct e; try exact Hidle.
    + destruct (schemas.validate parse_datetime (main.body req)) as [a|];
        [|exact Hidle].
      rewrite respond_fst, create_handler_fst.
      destruct (crud.create_attendance_record a db) as [db' r] eqn:E.
      now destruct (create_cases a db db' r Hidle E).
    + destruct (main.check_query req) as [[skip_ limit_]|]; [|exact Hidle].
      rewrite respond_fst.
      destruct (same_store_fields _ _
                  (list_handler_store skip_ limit_ (main.student_id req) db))
        as [_ [_ [_ [_ [Hn Hd]]]]].
      destruct Hidle. split; congruence.
    + destruct (main.path_int param) as [k|]; [|exact Hidle].
      rewrite respond_fst.
      destruct (same_store_fields _ _ (get_handler_store k db))
        as [_ [_ [_ [_ [Hn Hd]]]]].
      destruct Hidle. split; congruence.
    + destruct (main.path_int param) as [k|]; [|exact Hidle].
      rewrite respond_fst, delete_handler_fst.
      destruct (crud.delete_attendance_record k db) as [db' r] eqn:E.
      now destruct (delete_cases k db db' r Hidle E) as [_ [_ Hi]].
  - destruct (main.resolve main.routes (main.method req)
                (main.toggle_slash (main.path req)));
      try destruct (main.path req =? "/")%string; exact Hidle.
Qed.

(** X9. Starting from a sound table (the empty one for instance) and as
    long as the persistence layer does not raise, any sequence of
    requests whatever, served one after the other, leaves a sound table:
    pairwise distinct ids below the sequence, every row within the field
    constraints of the schema, and no unit of work pending. *)
Theorem serve_all_keeps_table_sound :
  forall (reqs : list main.Request) (db : Session),
    integrity db -> idle db -> reliable db ->
    Forall row_valid (table db) ->
    integrity (serve_all parse_datetime reqs db)
    /\ idle (serve_all parse_datetime reqs db)
    /\ reliable (serve_all parse_datetime reqs db)
    /\ Forall row_valid (table (serve_all parse_datetime reqs db)).
Proof.
  unfold serve_all.
  induction reqs as [|req reqs IH]; intros db Hint Hidle Hrel Hval; simpl.
  - auto.
  - destruct (app_sound req db Hidle) as [Hi Hv].
    apply IH; auto.
    + now apply app_keeps_idle.
    + eapply later_reliable; [apply app_later | exact Hrel].
Qed.

End Invariants.

Lemma app_keeps_table_sound_witness :
  (props.integrity samples.john_db_failing ->
   props.integrity
     (fst (main.app samples.parse_example
             (props.post_attendance samples.john) samples.john_db_failing)))
  /\ (Forall props.row_valid (orm.table samples.john_db_failing) ->
      Forall props.row_valid
        (orm.table
           (fst (main.app samples.parse_example
                   (props.post_attendance samples.john)
                   samples.john_db_failing)))).
Proof.
  apply (app_keeps_table_sound samples.parse_example
           (props.post_attendance samples.john) samples.john_db_failing).
  split; reflexivity.
Defined.

Lemma serve_all_keeps_table_sound_witness :
  let reqs :=
    [props.post_attendance samples.john;
     props.post_attendance samples.john;
     main.mkRequest main.DELETE "/api/v1/attendance/1" None None None
       samples.john;
     props.get_attendance None None None samples.john] in
  props.integrity (props.serve_all samples.parse_example reqs samples.empty_db)
  /\ props.idle (props.serve_all samples.parse_example reqs samples.empty_db)
  /\ props.reliable
       (props.serve_all samples.parse_example reqs samples.empty_db)
  /\ Forall props.row_valid
       (orm.table
          (props.serve_all samples.parse_example reqs samples.empty_db)).
Proof.
  apply (serve_all_keeps_table_sound samples.parse_example).
  - split; constructor.
  - split; reflexivity.
  - constructor.
  - constructor.
Defined.

Section LookupAndDelete.
Import orm props.

Lemma find_unique k (rows : list models.AttendanceRecord) r :
  NoDup (map models.id rows) -> In r rows -> models.id r = Some k ->
  find (models.id_is k) rows = Some r.
Proof.
  induction rows as [|x rows IH]; simpl; intros Hnd Hin Hid; [tauto|].
  apply NoDup_cons_iff in Hnd. destruct Hnd as [Hfresh Hnd].
  destruct (models.id_is k x) eqn:E.
  - destruct Hin as [->|Hin]; [reflexivity|].
    exfalso. apply Hfresh. apply id_is_true in E. rewrite E, <- Hid.
    now apply in_map.
  - destruct Hin as [->|Hin]; [|now apply IH].
    apply id_is_true in Hid. congruence.
Qed.

Lemma find_removed k (rows : list models.AttendanceRecord) :
  find (models.id_is k) (filter (fun x => negb (models.id_is k x)) rows)
  = None.
Proof.
  apply find_absent. intros x Hx Hid. apply filter_In in Hx.
  apply id_is_true in Hid. destruct Hx as [_ Hx]. now rewrite Hid in Hx.
Qed.

(** X10. get_by_id on the id of a row of the store returns that very
    row, and the handler of GET /attendance/{record_id} answers 200 with
    it (ids being distinct, the persistence layer not raising). *)
Theorem get_by_id_found :
  forall parse_datetime (req : main.Request) (db : Session) r k,
    integrity db -> reliable db ->
    In r (table db) -> models.id r = Some k ->
    exists db',
      crud.get_attendance_by_id k db = (db', Ok (Some r))
      /\ attendance_v1.get_attendance_by_id k db = (db', Ok r)
      /\ main.call parse_datetime main.get_attendance_by_id
           (attendance_v1.str_int k) req db
         = (db', main.mkResponse 200 (main.Row r))
      /\ same_store db db'.
Proof.
  intros pd req db r k [Hnd _] Hrel Hin Hid.
  destruct (get_by_id_reliable db k Hrel) as [db' [E [S _]]].
  rewrite (find_unique k _ r Hnd Hin Hid) in E.
  assert (Eh : attendance_v1.get_attendance_by_id k db = (db', Ok r)).
  { unfold attendance_v1.get_attendance_by_id. apply try_ok.
    now rewrite (bind_ok _ _ _ _ _ E). }
  exists db'. split; [exact E|]. split; [exact Eh|]. split; [|exact S].
  unfold main.call. rewrite path_int_str_int.
  unfold main.respond. now rewrite Eh.
Qed.

Lemma get_by_id_found_witness :
  exists db',
    crud.get_attendance_by_id 1 samples.john_db
    = (db', Ok (Some samples.john_row))
    /\ attendance_v1.get_attendance_by_id 1 samples.john_db
       = (db', Ok samples.john_row)
    /\ main.call samples.parse_example main.get_attendance_by_id
         (attendance_v1.str_int 1)
         (main.mkRequest main.GET "/api/v1/attendance/1" None None None
            samples.john)
         samples.john_db
       = (db', main.mkResponse 200 (main.Row samples.john_row))
    /\ same_store samples.john_db db'.
Proof.
  apply (get_by_id_found samples.parse_example
           (main.mkRequest main.GET "/api/v1/attendance/1" None None None
              samples.john)
           samples.john_db samples.john_row 1).
  - split; simpl.
    + repeat constructor. simpl. tauto.
    + repeat constructor. exists 1. split; reflexivity.
  - constructor.
  - now left.
  - reflexivity.
Defined.

(** X11. The handler of DELETE /attendance/{record_id} answers the
    confirmation message when a row of that id is in the store, the rows
    of that id being gone afterwards, and raises a 404 naming the id when
    there is none, the store being unchanged (the persistence layer not
    raising). *)
Theorem delete_handler_outcomes :
  forall (db : Session) (k : Z),
    idle db -> reliable db ->
    ((exists r, In r (table db) /\ models.id r = Some k) ->
     exists db',
       attendance_v1.delete_attendance k db
       = (db', Ok (schemas.mkMessageResponse
                     "Attendance record deleted successfully"))
       /\ table db' = filter (fun x => negb (models.id_is k x)) (table db)
       /\ forall x, In x (table db') -> models.id x <> Some k)
    /\ ((forall x, In x (table db) -> models.id x <> Some k) ->
        exists db',
          attendance_v1.delete_attendance k db
          = (db', Raise (HTTPException 404
                           ("Attendance record with ID "
                            ++ attendance_v1.str_int k
                            ++ " not found")%string))
          /\ same_store db db').
Proof.
  intros db k Hidle Hrel. split.
  - intros [r [Hin Hid]].
    destruct (find_present k _ r Hin Hid) as [r' Hfind].
    destruct (delete_present db k r' Hidle Hrel Hfind)
      as [db' [E [Ht _]]].
    exists db'. split; [|split; [exact Ht|]].
    + unfold attendance_v1.delete_attendance. apply try_ok.
      now rewrite (bind_ok _ _ _ _ _ E).
    + rewrite Ht. intros x Hx Hidx. apply filter_In in Hx.
      apply id_is_true in Hidx. destruct Hx as [_ Hx]. now rewrite Hidx in Hx.
  - intros Habs.
    destruct (delete_absent db k Hrel (find_absent k _ Habs))
      as [db' [E [S _]]].
    exists db'. split; [|exact S].
    unfold attendance_v1.delete_attendance.
    rewrite (try_raise _ _ db db'
               (HTTPException 404 (attendance_v1.not_found_detail k)));
      [reflexivity|].
    now rewrite (bind_ok _ _ _ _ _ E).
Qed.

Lemma delete_handler_outcomes_witness :
  ((exists r, In r (table samples.john_db) /\ models.id r = Some 1) ->
   exists db',
     attendance_v1.delete_attendance 1 samples.john_db
     = (db', Ok (schemas.mkMessageResponse
                   "Attendance record deleted successfully"))
     /\ table db'
        = filter (fun x => negb (models.id_is 1 x)) (table samples.john_db)
     /\ forall x, In x (table db') -> models.id x <> Some 1)
  /\ ((forall x, In x (table samples.john_db) -> models.id x <> Some 1) ->
      exists db',
        attendance_v1.delete_attendance 1 samples.john_db
        = (db', Raise (HTTPException 404
                         ("Attendance record with ID "
                          ++ attendance_v1.str_int 1
                          ++ " not found")%string))
        /\ same_store samples.john_db db').
Proof.
  apply (delete_handler_outcomes samples.john_db 1).
  - split; reflexivity.
  - constructor.
Defined.

(** X12. After a delete that returned True, get_by_id on the same id
    returns None and the handler of GET /attendance/{record_id} raises
    the 404 naming the id (the persistence layer not raising). *)
Theorem delete_then_get_by_id :
  forall (db : Session) (k : Z) r,
    idle db -> reliable db ->
    In r (table db) -> models.id r = Some k ->
    exists db1 db2,
      crud.delete_attendance_record k db = (db1, Ok true)
      /\ crud.get_attendance_by_id k db1 = (db2, Ok None)
      /\ attendance_v1.get_attendance_by_id k db1
         = (db2, Raise (HTTPException 404
                          ("Attendance record with ID "
                           ++ attendance_v1.str_int k
                           ++ " not found")%string)).
Proof.
  intros db k r Hidle Hrel Hin Hid.
  destruct (find_present k _ r Hin Hid) as [r' Hfind].
  destruct (delete_present db k r' Hidle Hrel Hfind)
    as [db1 [E1 [Ht [_ [_ R1]]]]].
  destruct (get_by_id_reliable db1 k R1) as [db2 [E2 _]].
  rewrite Ht, find_removed in E2.
  exists db1, db2. split; [exact E1|]. split; [exact E2|].
  unfold attendance_v1.get_attendance_by_id.
  rewrite (try_raise _ _ db1 db2
             (HTTPException 404 (attendance_v1.not_found_detail k)));
    [reflexivity|].
  now rewrite (bind_ok _ _ _ _ _ E2).
Qed.

Lemma delete_then_get_by_id_witness :
  exists db1 db2,
    crud.delete_attendance_record 1 samples.john_db = (db1, Ok true)
    /\ crud.get_attendance_by_id 1 db1 = (db2, Ok None)
    /\ attendance_v1.get_attendance_by_id 1 db1
       = (db2, Raise (HTTPException 404
                        ("Attendance record with ID "
                         ++ attendance_v1.str_int 1
                         ++ " not found")%string)).
Proof.
  apply (delete_then_get_by_id samples.john_db 1 samples.john_row).
  - split; reflexivity.
  - constructor.
  - now left.
  - reflexivity.
Defined.

(** X13. An id is not given twice: after the delete of a record, a
    create gets an id greater than the deleted one, and an id that no
    row of the store had before the delete (body without NUL in its
    texts, the persistence layer not raising). *)
Theorem deleted_id_not_reused :
  forall (a : schemas.AttendanceV1Create) (db : Session) (k : Z) r,
    storable a ->
    integrity db -> idle db -> reliable db ->
    In r (table db) -> models.id r = Some k ->
    exists db1 db2 row pk,
      crud.delete_attendance_record k db = (db1, Ok true)
      /\ crud.create_attendance_record a db1 = (db2, Ok row)
      /\ models.id row = Some pk
      /\ k < pk
      /\ forall x, In x (table db) -> models.id x <> Some pk.
Proof.
  intros a db k r Hst Hint Hidle Hrel Hin Hid.
  destruct (find_present k _ r Hin Hid) as [r' Hfind].
  destruct (delete_present db k r' Hidle Hrel Hfind)
    as [db1 [E1 [Ht [Hs [I1 R1]]]]].
  pose proof (delete_integrity db k db1 true Hint Hidle Hrel E1) as Hint1.
  destruct (create_reliable db1 a Hst Hint1 I1 R1) as [db2 [E2 _]].
  exists db1, db2,
    (stored_row (server db1) (sequence db1) (clock db1) a), (sequence db1).
  split; [exact E1|]. split; [exact E2|]. split; [reflexivity|].
  destruct Hint as [_ Hall]. rewrite Forall_forall in Hall. rewrite Hs.
  split.
  - destruct (Hall r Hin) as [i [Hi Hlt]]. congruence.
  - intros x Hx Hidx. destruct (Hall x Hx) as [i [Hi Hlt]].
    rewrite Hi in Hidx. inversion Hidx. lia.
Qed.

Lemma deleted_id_not_reused_witness :
  exists db1 db2 row pk,
    crud.delete_attendance_record 1 samples.john_db = (db1, Ok true)
    /\ crud.create_attendance_record samples.john_valid db1 = (db2, Ok row)
    /\ models.id row = Some pk
    /\ 1 < pk
    /\ forall x, In x (table samples.john_db) -> models.id x <> Some pk.
Proof.
  apply (deleted_id_not_reused samples.john_valid samples.john_db 1
           samples.john_row).
  - unfold storable, nul_free; simpl; intuition discriminate.
  - split; simpl.
    + repeat constructor. simpl. tauto.
    + repeat constructor. exists 1. split; reflexivity.
  - split; reflexivity.
  - constructor.
  - now left.
  - reflexivity.
Defined.

End LookupAndDelete.

Section Pages.
Import orm props.

Lemma firstn_then_firstn {A} (a b : nat) (l : list A) :
  firstn a l ++ firstn b (skipn a l) = firstn (a + b) l.
Proof.
  revert l. induction a as [|a IH]; intros l; simpl; [reflexivity|].
  destruct l as [|x l]; simpl.
  - now rewrite firstn_nil.
  - now rewrite IH.
Qed.

(** X14. Consecutive pages tile the ordered result when no two matching
    records have the same timestamp: the page of l1 records at offset
    skip followed by the page of l2 records at offset skip + l1 is the
    page of l1 + l2 records at offset skip; no record is lost or
    repeated between two pages of an unchanged store (offsets and
    limits within bigint, filter without NUL, the persistence layer not
    raising).  Between records of equal timestamp the order is the one
    of the database server and may change from one page to the next. *)
Theorem pages_tile :
  forall (db : Session) (skip l1 l2 : Z) (student_id : option string),
    reliable db -> filter_nul_free student_id ->
    distinct_timestamps (eligible student_id (table db)) ->
    0 <= skip -> 0 <= l1 -> 0 <= l2 -> skip + l1 + l2 <= bigint_max ->
    exists db1 db2 db3 p1 p2 p3,
      crud.get_attendance_records skip l1 student_id db = (db1, Ok p1)
      /\ crud.get_attendance_records (skip + l1) l2 student_id db1
         = (db2, Ok p2)
      /\ crud.get_attendance_records skip (l1 + l2) student_id db2
         = (db3, Ok p3)
      /\ p3 = p1 ++ p2.
Proof.
  intros db skip l1 l2 student_id Hrel Hn Hd Hs H1 H2 Hb.
  destruct (records_reliable db skip l1 student_id Hrel Hn)
    as [db1 [E1 [S1 R1]]]; [lia | lia |].
  destruct (records_reliable db1 (skip + l1) l2 student_id R1 Hn)
    as [db2 [E2 [S2 R2]]]; [lia | lia |].
  destruct (records_reliable db2 skip (l1 + l2) student_id R2 Hn)
    as [db3 [E3 _]]; [lia | lia |].
  rewrite (same_store_table _ _ S2), (same_store_table _ _ S1) in E3.
  rewrite (same_store_table _ _ S1) in E2.
  set (rank := ties (server db) (Some skip) (Some l1)
                 (eligible student_id (table db))) in *.
  rewrite (sort_desc_rank_free _ rank _ Hd) in E2.
  rewrite (sort_desc_rank_free _ rank _ Hd) in E3.
  eexists db1, db2, db3, _, _, _.
  split; [exact E1|]. split; [exact E2|]. split; [exact E3|].
  rewrite !Z2Nat.inj_add by lia.
  rewrite (Nat.add_comm (Z.to_nat skip) (Z.to_nat l1)), <- skipn_skipn.
  symmetry. apply firstn_then_firstn.
Qed.

Lemma pages_tile_witness :
  exists db1 db2 db3 p1 p2 p3,
    crud.get_attendance_records 0 1 None samples.john_db = (db1, Ok p1)
    /\ crud.get_attendance_records (0 + 1) 5 None db1 = (db2, Ok p2)
    /\ crud.get_attendance_records 0 (1 + 5) None db2 = (db3, Ok p3)
    /\ p3 = p1 ++ p2.
Proof.
  apply (pages_tile samples.john_db 0 1 5 None).
  - constructor.
  - exact I.
  - repeat constructor. simpl. tauto.
  - lia.
  - lia.
  - lia.
  - unfold bigint_max; lia.
Defined.

(** Two records of the same timestamp on a server that orders them
    differently from one query to the next: the first page of one record
    and the second page of one record both hold the record of id 1, and
    the page of two records holds the records of ids 2 and 1. *)
Lemma pages_of_twins :
  exists r1 r2,
    table samples.twins_db = [r1; r2]
    /\ models.id r1 = Some 1 /\ models.id r2 = Some 2
    /\ crud.get_attendance_records 0 1 None samples.twins_db
       = (samples.twins_db, Ok [r1])
    /\ crud.get_attendance_records 1 1 None samples.twins_db
       = (samples.twins_db, Ok [r1])
    /\ crud.get_attendance_records 0 2 None samples.twins_db
       = (samples.twins_db, Ok [r2; r1]).
Proof.
  eexists _, _. repeat split.
Qed.

(** X15. A page that starts at or after the end is empty, and the
    total is still the number of matching records: skip >= total gives
    no record and the same total (skip within bigint, filter without
    NUL, the persistence layer not raising).  The matching records are
    all records when no student_id is supplied or when it is empty, the
    records of that student otherwise. *)
Theorem page_past_the_end :
  forall (db : Session) (skip limit : Z) (student_id : option string),
    reliable db -> filter_nul_free student_id ->
    Z.of_nat (List.length (eligible student_id (table db))) <= skip ->
    skip <= bigint_max ->
    1 <= limit <= 500 ->
    exists db',
      attendance_v1.get_attendance_list skip limit student_id db
      = (db', Ok (schemas.mkAttendanceV1ListResponse
                    (Z.of_nat (List.length (eligible student_id (table db))))
                    [])).
Proof.
  intros db skip limit student_id Hrel Hn Hskip Hb [Hl1 Hl2].
  destruct (list_reliable db skip limit student_id Hrel Hn)
    as [db' [ordered [E [_ [P _]]]]];
    [lia | unfold bigint_max; lia |].
  exists db'. rewrite E. do 3 f_equal.
  rewrite skipn_all2; [now rewrite firstn_nil|].
  rewrite (Permutation_length P). lia.
Qed.

Lemma page_past_the_end_witness :
  exists db',
    attendance_v1.get_attendance_list 1 100 None samples.john_db
    = (db', Ok (schemas.mkAttendanceV1ListResponse
                  (Z.of_nat (List.length
                               (eligible None (table samples.john_db))))
                  [])).
Proof.
  apply (page_past_the_end samples.john_db 1 100 None).
  - constructor.
  - exact I.
  - simpl. lia.
  - unfold bigint_max; lia.
  - lia.
Defined.

Lemma eligible_snoc student_id rows row :
  eligible student_id (rows ++ [row])
  = eligible student_id rows ++ eligible student_id [row].
Proof.
  unfold eligible, rows_of_student. destruct student_id as [x|]; auto.
  destruct (x =? EmptyString)%string; auto. apply filter_app.
Qed.

(** X16. A create is seen by the next count: the total of a filter
    grows by one when the filter is absent, or empty, or the student_id
    of the created record, and stays the same for any other student_id
    (body and filter without NUL, the persistence layer not raising). *)
Theorem create_then_count :
  forall (a : schemas.AttendanceV1Create) (db : Session)
         (student_id : option string),
    storable a -> filter_nul_free student_id ->
    integrity db -> idle db -> reliable db ->
    exists db0 before db1 row db2 after,
      crud.get_total_count student_id db = (db0, Ok before)
      /\ crud.create_attendance_record a db = (db1, Ok row)
      /\ crud.get_total_count student_id db1 = (db2, Ok after)
      /\ (student_id = None \/ student_id = Some EmptyString
          \/ student_id = Some (schemas.student_id a) ->
          after = before + 1)
      /\ (forall x, student_id = Some x -> x <> EmptyString ->
                    x <> schemas.student_id a -> after = before).
Proof.
  intros a db student_id Hst Hn Hint Hidle Hrel.
  destruct (count_reliable db student_id Hrel Hn) as [db0 [E0 _]].
  destruct (create_reliable db a Hst Hint Hidle Hrel)
    as [db1 [E1 [Ht [_ [_ [_ [_ [_ [_ R1]]]]]]]]].
  destruct (count_reliable db1 student_id R1 Hn) as [db2 [E2 _]].
  rewrite Ht, eligible_snoc in E2.
  eexists db0, _, db1, _, db2, _.
  split; [exact E0|]. split; [exact E1|]. split; [exact E2|].
  rewrite length_app, Nat2Z.inj_add.
  set (row := stored_row (server db) (sequence db) (clock db) a).
  assert (Hone : forall x,
             eligible (Some x) [row]
             = if (x =? EmptyString)%string then [row]
               else if (schemas.student_id a =? x)%string then [row]
                    else []).
  { intros x. unfold eligible, rows_of_student.
    destruct (x =? EmptyString)%string; reflexivity. }
  split.
  - intros [-> | [-> | ->]]; [reflexivity | reflexivity |].
    rewrite Hone, String.eqb_refl.
    destruct (schemas.student_id a =? EmptyString)%string; reflexivity.
  - intros x -> Hx Ha. rewrite Hone.
    apply String.eqb_neq in Hx. rewrite Hx.
    assert (Q : (schemas.student_id a =? x)%string = false).
    { apply String.eqb_neq. congruence. }
    rewrite Q. simpl. lia.
Qed.

Lemma create_then_count_witness :
  exists db0 before db1 row db2 after,
    crud.get_total_count (Some "STU123") samples.john_db = (db0, Ok before)
    /\ crud.create_attendance_record samples.john_valid samples.john_db
       = (db1, Ok row)
    /\ crud.get_total_count (Some "STU123") db1 = (db2, Ok after)
    /\ (Some "STU123" = None \/ Some "STU123" = Some EmptyString
        \/ Some "STU123" = Some (schemas.student_id samples.john_valid) ->
        after = before + 1)
    /\ (forall x, Some "STU123" = Some x -> x <> EmptyString ->
                  x <> schemas.student_id samples.john_valid ->
                  after = before).
Proof.
  apply (create_then_count samples.john_valid samples.john_db
           (Some "STU123")).
  - unfold storable, nul_free; simpl; intuition discriminate.
  - unfold filter_nul_free, nul_free; simpl; intuition discriminate.
  - split; simpl.
    + repeat constructor. simpl. tauto.
    + repeat constructor. exists 1. split; reflexivity.
  - split; reflexivity.
  - constructor.
Defined.

End Pages.

Section Application.
Import orm props.
Variable parse_datetime : string -> option models.datetime.

(** X17. A POST /api/v1/attendance/ whose body meets every field
    constraint, without NUL in student_name and student_id, is answered
    201 with the confirmation message, and the table has one row more:
    the fields of the body, the next id of the sequence, the time of the
    database as created_at and no updated_at.  The timestamp of the row
    is what the column without time zone keeps of the one of the body:
    the same value when it has no UTC offset (the persistence layer not
    raising). *)
Theorem post_valid_body_is_stored :
  forall (p : schemas.Payload) (db : Session),
    valid parse_datetime p ->
    nul_free (schemas.raw_student_name p) ->
    nul_free (schemas.raw_student_id p) ->
    integrity db -> idle db -> reliable db ->
    exists t db',
      parse_datetime (schemas.raw_timestamp p) = Some t
      /\ main.app parse_datetime (post_attendance p) db
         = (db', main.mkResponse 201
                   (main.Message
                      (schemas.mkMessageResponse
                         "Attendance record stored successfully")))
      /\ table db'
         = table db
           ++ [models.mkAttendanceRecord (Some (sequence db))
                 (schemas.raw_student_name p) (schemas.raw_student_id p)
                 (to_column (server db) t)
                 (schemas.raw_bluetooth_signal_strength p)
                 (schemas.raw_status p) (Some (clock db)) None]
      /\ (models.utcoffset t = None -> to_column (server db) t = t).
Proof.
  intros p db Hv Hn1 Hn2 Hint Hidle Hrel.
  destruct (validate_valid parse_datetime p Hv) as [a Ha].
  pose proof (validate_status parse_datetime p a Ha) as Hn3.
  destruct (validate_accepted parse_datetime p a Ha) as [N [I [T [B S]]]].
  assert (Hst : storable a).
  { unfold storable. rewrite N, I. auto. }
  destruct (create_reliable db a Hst Hint Hidle Hrel) as [db' [E [Ht _]]].
  exists (schemas.timestamp a), db'. split; [exact T|]. split; [|split].
  - unfold main.app, post_attendance. cbn [main.method main.path].
    replace (main.resolve main.routes main.POST "/api/v1/attendance/")
      with (main.FULL main.create_attendance EmptyString) by reflexivity.
    unfold main.call. cbn [main.body]. rewrite Ha.
    unfold main.respond.
    now rewrite (create_attendance_ok a db db' _ E).
  - rewrite Ht. unfold stored_row, row_of, models.with_timestamp. simpl.
    now rewrite N, I, B, S.
  - intros Hoff. unfold to_column. now rewrite Hoff.
Qed.

(** X18. The query parameters of GET /api/v1/attendance/ are checked
    before the data access layer is reached: a skip below 0 or a limit
    outside [1, 500] is answered 422 with the session untouched; absent
    parameters stand for skip 0 and limit 100, and parameters in range
    are handed to the handler as they are. *)
Theorem list_query_is_checked :
  forall (skip limit : option Z) (student_id : option string)
         (b : schemas.Payload) (db : Session),
    let skip_ := match skip with Some n => n | None => 0 end in
    let limit_ := match limit with Some n => n | None => 100 end in
    (skip_ < 0 \/ limit_ < 1 \/ 500 < limit_ ->
     exists errors,
       errors <> []
       /\ (forall loc kind, In (loc, kind) errors ->
             loc = "skip" \/ loc = "limit")
       /\ main.app parse_datetime (get_attendance skip limit student_id b) db
          = (db, main.mkResponse 422 (main.Errors errors)))
    /\ (0 <= skip_ /\ 1 <= limit_ <= 500 ->
        main.app parse_datetime (get_attendance skip limit student_id b) db
        = main.respond 200 main.Listing
            (attendance_v1.get_attendance_list skip_ limit_ student_id) db).
Proof.
  intros skip limit student_id b db skip_ limit_.
  assert (Eapp : main.app parse_datetime
                   (get_attendance skip limit student_id b) db
                 = main.call parse_datetime main.get_attendance_list
                     EmptyString (get_attendance skip limit student_id b) db).
  { unfold main.app, get_attendance. cbn [main.method main.path].
    replace (main.resolve main.routes main.GET "/api/v1/attendance/")
      with (main.FULL main.get_attendance_list EmptyString) by reflexivity.
    reflexivity. }
  rewrite Eapp. unfold main.call, main.check_query, get_attendance.
  cbn [main.skip main.limit main.student_id].
  fold skip_ limit_.
  destruct (Z.ltb_spec skip_ 0) as [Hs|Hs];
    destruct (Z.ltb_spec limit_ 1) as [Hl|Hl];
    try destruct (Z.ltb_spec 500 limit_) as [Hh|Hh]; simpl; split;
    try (intros [? [? ?]]; lia); try (intros [?|[?|?]]; lia);
    try (intros _; refine (ex_intro _ _ (conj _ (conj _ eq_refl)));
         [discriminate
         | simpl; intros loc kind Hin;
           repeat (destruct Hin as [Hin|Hin]; [inversion Hin; tauto|]);
           destruct Hin]);
    try (intros _; reflexivity).
Qed.

Lemma resolve_v2 m rest :
  main.resolve main.routes m ("/api/v2" ++ rest)%string = main.NONE.
Proof. destruct m; reflexivity. Qed.

Lemma toggle_slash_v2 rest :
  exists rest',
    main.toggle_slash ("/api/v2" ++ rest)%string = ("/api/v2" ++ rest')%string.
Proof.
  unfold main.toggle_slash.
  destruct rest as [|c r].
  - exists "/". reflexivity.
  - match goal with |- context [if ?b then _ else _] => destruct b end.
    + exists (substring 0 (String.length r) (String c r)). reflexivity.
    + exists (String c r ++ "/")%string. reflexivity.
Qed.

Lemma app_v2 m rest skip limit student_id b db :
  main.app parse_datetime
    (main.mkRequest m ("/api/v2" ++ rest)%string skip limit student_id b) db
  = (db, main.mkResponse 404 (main.Detail "Not Found")).
Proof.
  unfold main.app. cbn [main.method main.path].
  rewrite resolve_v2.
  destruct (toggle_slash_v2 rest) as [rest' ->].
  now rewrite resolve_v2.
Qed.

(** The middleware answers a preflight itself and hands every other
    request to the application. *)
Lemma middleware_cases (h : main.Http) db :
  (preflight h
   /\ exists requested,
        main.access_control_request_method h = Some requested
        /\ main.application parse_datetime h db
           = (db, if existsb (String.eqb requested) main.ALL_METHODS
                  then main.mkResponse 200 (main.Text "OK")
                  else main.mkResponse 400
                         (main.Text "Disallowed CORS method")))
  \/ (~ preflight h
      /\ main.application parse_datetime h db
         = main.app parse_datetime (main.request h) db).
Proof.
  unfold preflight, main.application, main.CORSMiddleware.
  destruct (main.origin h) as [o|];
    [| right; split; [intros [H _]; congruence | reflexivity]].
  destruct (main.method (main.request h));
    try (right; split; [intros [_ [H _]]; discriminate | reflexivity]).
  destruct (main.access_control_request_method h) as [requested|].
  - left. split; [repeat split; discriminate|].
    exists requested. split; [reflexivity|].
    destruct (existsb _ _); reflexivity.
  - right. split; [intros [_ [_ H]]; congruence | reflexivity].
Qed.

(** X19. Nothing is served under /api/v2: whatever the method (GET,
    POST, PUT, DELETE, HEAD, OPTIONS, PATCH or any other), the rest of
    the path, the parameters and the body, a request whose path starts
    with /api/v2 fits no route of the application, which answers 404.
    With the CORS middleware in front, a preflight is answered by the
    middleware (200, or 400 when the requested method is none of its
    seven) and every other request gets the 404; the session is
    untouched in all cases. *)
Theorem nothing_under_api_v2 :
  forall (m : main.Method) (rest : string) (skip limit : option Z)
         (student_id : option string) (b : schemas.Payload)
         (origin requested : option string) (db : Session),
    let req :=
      main.mkRequest m ("/api/v2" ++ rest)%string skip limit student_id b in
    let h := main.mkHttp req origin requested in
    main.app parse_datetime req db
    = (db, main.mkResponse 404 (main.Detail "Not Found"))
    /\ fst (main.application parse_datetime h db) = db
    /\ (~ preflight h ->
        main.application parse_datetime h db
        = (db, main.mkResponse 404 (main.Detail "Not Found")))
    /\ (preflight h ->
        forall method,
          requested = Some method ->
          (In method main.ALL_METHODS ->
           main.application parse_datetime h db
           = (db, main.mkResponse 200 (main.Text "OK")))
          /\ (~ In method main.ALL_METHODS ->
              main.application parse_datetime h db
              = (db, main.mkResponse 400
                       (main.Text "Disallowed CORS method")))).
Proof.
  intros m rest skip limit student_id b origin requested db req h.
  pose proof (app_v2 m rest skip limit student_id b db) as Happ.
  fold req in Happ.
  split; [exact Happ|].
  destruct (middleware_cases h db) as [[P [r [Hr E]]] | [P E]].
  - split; [rewrite E; reflexivity|]. split; [tauto|].
    intros _ method Hm. cbn [h main.access_control_request_method] in Hr.
    rewrite Hm in Hr. inversion Hr; subst r. rewrite E.
    destruct (existsb (String.eqb method) main.ALL_METHODS) eqn:X.
    + split; [reflexivity|]. intros N. exfalso. apply N.
      apply existsb_exists in X. destruct X as [x [Hx Q]].
      apply String.eqb_eq in Q. now subst x.
    + split; [|reflexivity]. intros Hin. exfalso.
      assert (Y : existsb (String.eqb method) main.ALL_METHODS = true).
      { apply existsb_exists. exists method. split; [exact Hin|].
        apply String.eqb_refl. }
      congruence.
  - cbn [h main.request] in E. rewrite Happ in E.
    split; [rewrite E; reflexivity|]. split; [intros _; exact E | tauto].
Qed.

(** X22. The CORS middleware of the application answers a preflight
    (OPTIONS with the headers Origin and Access-Control-Request-Method)
    itself, whatever the path: 200 when the requested method is one of
    DELETE, GET, HEAD, OPTIONS, PATCH, POST, PUT, and 400 otherwise; no
    route is reached and the session is untouched.  Every other request
    is answered by the application as without the middleware. *)
Theorem preflight_answered_by_middleware :
  forall (h : main.Http) (db : Session),
    (preflight h ->
     fst (main.application parse_datetime h db) = db
     /\ forall method,
          main.access_control_request_method h = Some method ->
          (In method main.ALL_METHODS ->
           snd (main.application parse_datetime h db)
           = main.mkResponse 200 (main.Text "OK"))
          /\ (~ In method main.ALL_METHODS ->
              snd (main.application parse_datetime h db)
              = main.mkResponse 400 (main.Text "Disallowed CORS method")))
    /\ (~ preflight h ->
        main.application parse_datetime h db
        = main.app parse_datetime (main.request h) db).
Proof.
  intros h db.
  destruct (middleware_cases h db) as [[P [r [Hr E]]] | [P E]].
  - split; [|tauto]. intros _. split; [rewrite E; reflexivity|].
    intros method Hm. rewrite Hm in Hr. inversion Hr; subst r. rewrite E.
    destruct (existsb (String.eqb method) main.ALL_METHODS) eqn:X.
    + split; [reflexivity|]. intros N. exfalso. apply N.
      apply existsb_exists in X. destruct X as [x [Hx Q]].
      apply String.eqb_eq in Q. now subst x.
    + split; [|reflexivity]. intros Hin. exfalso.
      assert (Y : existsb (String.eqb method) main.ALL_METHODS = true).
      { apply existsb_exists. exists method. split; [exact Hin|].
        apply String.eqb_refl. }
      congruence.
  - split; [tauto | intros _; exact E].
Qed.

End Application.

Lemma post_valid_body_is_stored_witness :
  exists t db',
    samples.parse_example (schemas.raw_timestamp samples.john) = Some t
    /\ main.app samples.parse_example (props.post_attendance samples.john)
         samples.empty_db
       = (db', main.mkResponse 201
                 (main.Message
                    (schemas.mkMessageResponse
                       "Attendance record stored successfully")))
    /\ orm.table db'
       = orm.table samples.empty_db
         ++ [models.mkAttendanceRecord (Some (orm.sequence samples.empty_db))
               (schemas.raw_student_name samples.john)
               (schemas.raw_student_id samples.john)
               (orm.to_column (orm.server samples.empty_db) t)
               (schemas.raw_bluetooth_signal_strength samples.john)
               (schemas.raw_status samples.john)
               (Some (orm.clock samples.empty_db)) None]
    /\ (models.utcoffset t = None
        -> orm.to_column (orm.server samples.empty_db) t = t).
Proof.
  apply (post_valid_body_is_stored samples.parse_example samples.john
           samples.empty_db).
  - unfold props.valid; simpl.
    split; [lia|]. split; [lia|]. split; [discriminate|].
    split; [intros n H; inversion H; lia | now left].
  - unfold props.nul_free; simpl; intuition discriminate.
  - unfold props.nul_free; simpl; intuition discriminate.
  - split; constructor.
  - split; reflexivity.
  - constructor.
Defined.

Lemma list_query_is_checked_witness :
  exists errors,
    errors <> []
    /\ (forall loc kind, In (loc, kind) errors ->
          loc = "skip" \/ loc = "limit")
    /\ main.app samples.parse_example
         (props.get_attendance (Some (-1)) (Some 501) None samples.john)
         samples.john_db
       = (samples.john_db, main.mkResponse 422 (main.Errors errors)).
Proof.
  destruct (list_query_is_checked samples.parse_example (Some (-1))
              (Some 501) None samples.john samples.john_db) as [H _].
  apply H. left. lia.
Defined.

Lemma preflight_answered_by_middleware_witness :
  fst (main.application samples.parse_example
         (main.mkHttp
            (main.mkRequest main.OPTIONS "/api/v2/attendance/" None None
               None samples.john)
            (Some "https://example.org") (Some "POST"))
         samples.john_db)
  = samples.john_db
  /\ forall method,
       Some "POST" = Some method ->
       (In method main.ALL_METHODS ->
        snd (main.application samples.parse_example
               (main.mkHttp
                  (main.mkRequest main.OPTIONS "/api/v2/attendance/" None
                     None None samples.john)
                  (Some "https://example.org") (Some "POST"))
               samples.john_db)
        = main.mkResponse 200 (main.Text "OK"))
       /\ (~ In method main.ALL_METHODS ->
           snd (main.application samples.parse_example
                  (main.mkHttp
                     (main.mkRequest main.OPTIONS "/api/v2/attendance/" None
                        None None samples.john)
                     (Some "https://example.org") (Some "POST"))
                  samples.john_db)
           = main.mkResponse 400 (main.Text "Disallowed CORS method")).
Proof.
  apply (preflight_answered_by_middleware samples.parse_example
           (main.mkHttp
              (main.mkRequest main.OPTIONS "/api/v2/attendance/" None None
                 None samples.john)
              (Some "https://example.org") (Some "POST"))
           samples.john_db).
  unfold props.preflight; simpl. repeat split; discriminate.
Defined.

Section DeleteFailure.
Import orm props.




End DeleteFailure.

Section PageSize.
Import orm props.

(** X21. The size of a page is what is left of the matching records
    after skip, capped at limit: min(limit, max(0, total - skip)), for
    a skip within bigint and a filter without NUL (the persistence
    layer not raising). *)
Theorem page_size :
  forall (db : Session) (skip limit : Z) (student_id : option string),
    reliable db -> filter_nul_free student_id ->
    0 <= skip <= bigint_max -> 1 <= limit <= 500 ->
    exists db' total page,
      attendance_v1.get_attendance_list skip limit student_id db
      = (db', Ok (schemas.mkAttendanceV1ListResponse total page))
      /\ Z.of_nat (List.length page)
         = Z.min limit (Z.max 0 (total - skip)).
Proof.
  intros db skip limit student_id Hrel Hn Hs [Hl1 Hl2].
  destruct (list_reliable db skip limit student_id Hrel Hn Hs)
    as [db' [ordered [E [_ [P _]]]]]; [unfold bigint_max; lia|].
  eexists db', _, _. split; [exact E|].
  rewrite length_firstn, length_skipn.
  rewrite (Permutation_length P). lia.
Qed.

Lemma page_size_witness :
  exists db' total page,
    attendance_v1.get_attendance_list 0 100 None samples.john_db
    = (db', Ok (schemas.mkAttendanceV1ListResponse total page))
    /\ Z.of_nat (List.length page) = Z.min 100 (Z.max 0 (total - 0)).
Proof.
  apply (page_size samples.john_db 0 100 None).
  - constructor.
  - exact I.
  - unfold bigint_max; lia.
  - lia.
Defined.

End PageSize.
